(** * Power_Profiler: the RAPL sampling loop of [idle_cpu.py]

    A shallow embedding of [RaplReader] and of the sampling loop of [main]
    in [src/idle_cpu.py], with the properties of the loop that the
    specification states.

    Conventions of the embedding.
    - Python integers are [Z].  Python floats (clock readings, intervals,
      power values) are exact rationals [Q]: the arithmetic of the loop is
      modelled without the rounding error of IEEE doubles.
    - Python dictionaries are stdpp's [gmap]; a subscript [d[k]] on a missing
      key is the exception [KeyError].
    - [None] is [option]'s [None]: a reading is an [option Z].
    - What the loop observes from outside (clock readings, the contents of the
      sysfs files, the wall-clock timestamp) is an explicit input of each
      tick, in the order in which the source reads it.
    - Exceptions are values of a small error monad. *)

From Stdlib Require Import ZArith QArith Qround Qminmax Lqa Lia.
From stdpp Require Import base option list gmap strings pretty.

Local Open Scope Z_scope.

(** ** Exceptions *)

Inductive exn : Type :=
  | ZeroDivisionError
  | KeyError (key : string)
  | TypeError.

Inductive result (A : Type) : Type :=
  | Ok (a : A)
  | Raise (e : exn).
Arguments Ok {A} a.
Arguments Raise {A} e.

#[global] Instance result_ret : MRet result := fun A a => Ok a.

#[global] Instance result_bind : MBind result := fun A B k m =>
  match m with
  | Ok a => k a
  | Raise e => Raise e
  end.

(** [d[k]] on a dictionary. *)
Definition subscript {V : Type} (d : gmap string V) (k : string) : result V :=
  match d !! k with
  | Some v => Ok v
  | None => Raise (KeyError k)
  end.

(** ** Numbers *)

(** Rounding of a rational to the nearest integer, ties to even: what Python's
    [round] does on the exact value of a float. *)
Definition round_half_even (q : Q) : Z :=
  let f := Qfloor q in
  match Qcompare (q - inject_Z f) (1 # 2) with
  | Lt => f
  | Gt => f + 1
  | Eq => if Z.even f then f else f + 1
  end.

(** [round(x, ndigits)] for [ndigits >= 0]. *)
Definition py_round (x : Q) (ndigits : nat) : Q :=
  let scale := inject_Z (10 ^ Z.of_nat ndigits) in
  (inject_Z (round_half_even (x * scale)) / scale)%Q.

(** [x / y] on floats. *)
Definition truediv (x y : Q) : result Q :=
  if Qeq_bool y 0 then Raise ZeroDivisionError else Ok (x / y)%Q.

(** ** RaplReader *)

Record RaplReader : Type := {
  domain_paths : list string;             (* the keys, in insertion order *)
  max_energy_values : gmap string Z
}.

(** [RaplReader.__init__]: [max_files d] is the content of the domain's
    [max_energy_range_uj], or [None] when opening or reading it raises
    [IOError]/[OSError]. *)
Definition RaplReader_init (domains : list string)
    (max_files : string -> option Z) : RaplReader :=
  {| domain_paths := domains;
     max_energy_values :=
       foldl (fun acc domain =>
                match max_files domain with
                | Some v => <[domain := v]> acc
                | None => <[domain := 2 ^ 32]> acc
                end) ∅ domains |}.

(** [read_energy_values]: every domain's thread stores its own key, an integer
    or [None], and all threads are joined before the dictionary is returned.
    [files d] is the content of the domain's [energy_uj], or [None] when
    the read raises [IOError]/[OSError]. *)
Definition read_energy_values (self : RaplReader)
    (files : string -> option Z) : gmap string (option Z) :=
  foldl (fun result domain => <[domain := files domain]> result)
        ∅ (domain_paths self).

(** [get_max_energy]: [dict.get], so a missing key gives [None]. *)
Definition get_max_energy (self : RaplReader) (domain : string) : option Z :=
  max_energy_values self !! domain.

(** ** The delta of two readings (lines 193-196) *)

(** [energy_diff = curr - prev; if energy_diff < 0: energy_diff += max_range].
    [max_range] is what [get_max_energy] returned; adding [None] to an
    integer is a [TypeError]. *)
Definition energy_diff (prev curr : Z) (max_range : option Z) : result Z :=
  let diff := curr - prev in
  if diff <? 0 then
    match max_range with
    | Some m => Ok (diff + m)
    | None => Raise TypeError
    end
  else Ok diff.

(** ** The sampling loop of [main] *)

(** The parsed command line, as far as the loop reads it. *)
Record Args : Type := {
  interval : Q;          (* -i, a float *)
  duration : Z;          (* -d, an int; 0 = run until interrupted *)
  buffer_size : Z        (* -b, an int *)
}.

(** One row of output: the dictionary [row].  Its keys are ['timestamp'],
    ['elapsed_seconds'] and one [f"{domain}_power_watts"] per domain. *)
Record Row : Type := {
  timestamp : string;
  elapsed_seconds : Q;
  power_watts : gmap string (option Q)
}.

(** The status line printed at lines 224-225. *)
Record Status : Type := {
  status_timestamp : string;
  status_samples : Z;
  status_rate : Q;
  status_total_power : Q
}.

(** The variables the loop mutates, with the rows handed to
    [writer.writerows] so far and the status lines printed so far. *)
Record LoopState : Type := {
  prev_energy : gmap string (option Z);
  buffer : list Row;
  samples : Z;
  last_status_time : Q;
  csvfile : list Row;
  stdout : list Status
}.

(** What one iteration observes, in source order. *)
Record Tick : Type := {
  sample_start : Q;                       (* time.time(), line 171 *)
  current_time : Q;                       (* time.time(), line 174 *)
  energy_files : string -> option Z;      (* the reads of line 182 *)
  now_iso : string;                       (* datetime.now().isoformat() *)
  current : Q;                            (* time.time(), line 220: read only
                                             after a flush *)
  sample_end : Q                          (* time.time(), line 229 *)
}.

Definition column (domain : string) : string := domain +:+ "_power_watts".

(** Line 200. *)
Definition actual_interval (args : Args) (t : Tick) : Q :=
  (current_time t - sample_start t + interval args)%Q.

(** Lines 191-204 for one domain: the value stored under the domain's column.
    The [and] of line 191 does not evaluate [current_energy[domain]] when the
    previous reading is [None]. *)
Definition domain_power (self : RaplReader) (args : Args)
    (prev current_energy : gmap string (option Z)) (t : Tick)
    (domain : string) : result (option Q) :=
  p ← subscript prev domain;
  match p with
  | None => Ok None
  | Some prev_value =>
      c ← subscript current_energy domain;
      match c with
      | None => Ok None
      | Some curr_value =>
          diff ← energy_diff prev_value curr_value (get_max_energy self domain);
          power ← truediv (inject_Z diff / 1000000)%Q (actual_interval args t);
          Ok (Some (py_round power 3))
      end
  end.

(** The [for domain in domains] loop of lines 190-204. *)
Fixpoint power_columns (self : RaplReader) (args : Args)
    (prev current_energy : gmap string (option Z)) (t : Tick)
    (domains : list string) (row : gmap string (option Q))
    : result (gmap string (option Q)) :=
  match domains with
  | [] => Ok row
  | domain :: rest =>
      v ← domain_power self args prev current_energy t domain;
      power_columns self args prev current_energy t rest
                    (<[column domain := v]> row)
  end.

(** Line 223: the sum of the power values of [row] that are not [None]. *)
Definition total_power (domains : list string)
    (row : gmap string (option Q)) : Q :=
  foldl (fun acc domain =>
           match row !! column domain with
           | Some (Some v) => (acc + v)%Q
           | _ => acc
           end) 0%Q domains.

(** Lines 214-226: the flush of a full buffer and, inside it, the status
    line. *)
Definition flush_and_report (self : RaplReader) (args : Args) (start_time : Q)
    (st : LoopState) (current_energy : gmap string (option Z))
    (t : Tick) (row : Row) : result LoopState :=
  let buffer1 := buffer st ++ [row] in
  let samples1 := samples st + 1 in
  if buffer_size args <=? Z.of_nat (length buffer1) then
    let csvfile1 := csvfile st ++ buffer1 in
    if Qle_bool 5 (current t - last_status_time st) then
      rate ← truediv (inject_Z samples1) (current t - start_time);
      Ok {| prev_energy := current_energy;
            buffer := [];
            samples := samples1;
            last_status_time := current t;
            csvfile := csvfile1;
            stdout := stdout st ++
              [ {| status_timestamp := timestamp row;
                   status_samples := samples1;
                   status_rate := rate;
                   status_total_power :=
                     py_round (total_power (domain_paths self)
                                           (power_watts row)) 2 |} ] |}
    else
      Ok {| prev_energy := current_energy;
            buffer := [];
            samples := samples1;
            last_status_time := last_status_time st;
            csvfile := csvfile1;
            stdout := stdout st |}
  else
    Ok {| prev_energy := current_energy;
          buffer := buffer1;
          samples := samples1;
          last_status_time := last_status_time st;
          csvfile := csvfile st;
          stdout := stdout st |}.

(** Lines 229-230. *)
Definition sleep_time (args : Args) (t : Tick) : Q :=
  let sample_time := (sample_end t - sample_start t)%Q in
  Qmax 0 (interval args - sample_time).

(** One iteration of [while True]: either the [break] of line 179, or a row
    is appended and the loop sleeps for [sleep_time] seconds (a [sleep_time]
    of 0 skips [time.sleep]). *)
Inductive outcome : Type :=
  | Break
  | Sampled (st : LoopState) (row : Row) (sleep_for : Q).

(** Line 177: [args.duration > 0 and elapsed_seconds >= args.duration]. *)
Definition duration_reached (args : Args) (start_time : Q) (t : Tick) : bool :=
  (0 <? duration args) &&
  Qle_bool (inject_Z (duration args)) (current_time t - start_time).

Definition tick (self : RaplReader) (args : Args) (start_time : Q)
    (st : LoopState) (t : Tick) : result outcome :=
  let elapsed := (current_time t - start_time)%Q in
  if duration_reached args start_time t
  then Ok Break
  else
    let current_energy := read_energy_values self (energy_files t) in
    cols ← power_columns self args (prev_energy st) current_energy t
                         (domain_paths self) ∅;
    let row := {| timestamp := now_iso t;
                  elapsed_seconds := py_round elapsed 6;
                  power_watts := cols |} in
    st1 ← flush_and_report self args start_time st current_energy t row;
    Ok (Sampled st1 row (sleep_time args t)).

(** How the loop ended without an exception. *)
Inductive stop : Type :=
  | DurationReached
  | Interrupted.

(** The [while True] loop inside [try ... except KeyboardInterrupt].  The
    list holds the observations of the iterations that start before Ctrl+C;
    the interrupt is taken between two iterations, during the sleep that
    follows the last of them.  The result is the reason of the exit, the
    final state and the rows appended to the buffer, oldest first.
    [writer.writerows], [csvfile.flush], [print] and [time.sleep] are taken
    to return: an [OSError] of the output or the [OverflowError] of a sleep
    of more than about 9.2e9 seconds is not part of this model. *)
Fixpoint loop (self : RaplReader) (args : Args) (start_time : Q)
    (st : LoopState) (ticks : list Tick)
    : result (stop * LoopState * list Row) :=
  match ticks with
  | [] => Ok (Interrupted, st, [])
  | t :: rest =>
      o ← tick self args start_time st t;
      match o with
      | Break => Ok (DurationReached, st, [])
      | Sampled st1 row _ =>
          r ← loop self args start_time st1 rest;
          Ok (r.1.1, r.1.2, row :: r.2)
      end
  end.

(** What a run observes. *)
Record Env : Type := {
  max_files : string -> option Z;         (* max_energy_range_uj, line 40 *)
  first_files : string -> option Z;       (* the reads of line 150 *)
  start_time : Q;                         (* time.time(), line 161 *)
  ticks : list Tick
}.

(** What a run leaves behind. *)
Record Output : Type := {
  data_rows : list Row;                   (* the rows after the header *)
  printed : list Status;
  sample_count : Z;
  appended : list Row;
  ended : stop
}.

Definition initial_state (self : RaplReader) (env : Env) : LoopState :=
  {| prev_energy := read_energy_values self (first_files env);
     buffer := [];
     samples := 0;
     last_status_time := start_time env;
     csvfile := [];
     stdout := [] |}.

(** Lines 238-239: [if buffer: writer.writerows(buffer)]. *)
Definition write_remaining (st : LoopState) : list Row :=
  match buffer st with
  | [] => csvfile st
  | _ :: _ => csvfile st ++ buffer st
  end.

(** [main] from line 147 on, for the monitored [domains] (not empty, without
    duplicates: they are the keys of a dictionary).  An exception that leaves
    the loop is caught at line 251 and [main] returns 1: the rows still in
    the buffer are then not written. *)
Definition main (args : Args) (domains : list string) (env : Env)
    : result Output :=
  let rapl_reader := RaplReader_init domains (max_files env) in
  r ← loop rapl_reader args (start_time env)
           (initial_state rapl_reader env) (ticks env);
  Ok {| data_rows := write_remaining r.1.2;
        printed := stdout r.1.2;
        sample_count := samples r.1.2;
        appended := r.2;
        ended := r.1.1 |}.

(** ** What holds of the state between two iterations *)

(** Both dictionaries of readings come from [read_energy_values], so every
    monitored domain has a key in [prev_energy]; and the time of the last
    status line is the start time or a later reading that passed the test of
    line 221. *)
Definition loop_invariant (self : RaplReader) (start_time : Q)
    (st : LoopState) : Prop :=
  (forall d, d ∈ domain_paths self -> is_Some (prev_energy st !! d)) /\
  (start_time <= last_status_time st)%Q.

(** ** Sample runs *)

Definition readings (package dram : option Z) (domain : string) : option Z :=
  if decide (domain = "package-0") then package
  else if decide (domain = "dram") then dram
  else None.

(** An iteration that starts at [t0] and takes [took] seconds. *)
Definition observed (t0 took : Q) (files : string -> option Z) : Tick :=
  {| sample_start := t0;
     current_time := t0;
     energy_files := files;
     now_iso := "2025-01-01T00:00:00";
     current := (t0 + took)%Q;
     sample_end := (t0 + took)%Q |}.

Definition sample_domains : list string := ["package-0"; "dram"].

Definition sample_args : Args :=
  {| interval := 1 # 100; duration := 10; buffer_size := 3 |}.

Definition sample_reader : RaplReader :=
  RaplReader_init sample_domains (fun _ => Some 262143328850).

(** Scenario B: the first reads give 0 for both domains; in the first
    iteration the package read gives 100 and the dram read fails; in the
    second both reads succeed. *)
Definition scenario_B_failed : Tick :=
  observed (1 # 100) (1 # 1000) (readings (Some 100) None).

Definition scenario_B_recovered : Tick :=
  observed (2 # 100) (1 # 1000) (readings (Some 200) (Some 70)).

Definition scenario_B : Env :=
  {| max_files := fun _ => Some 262143328850;
     first_files := readings (Some 0) (Some 0);
     start_time := 0;
     ticks := [scenario_B_failed; scenario_B_recovered] |}.

(** The run of scenario B with [-i 0]. *)
Definition zero_interval_args : Args :=
  {| interval := 0; duration := 0; buffer_size := 1000 |}.

(** Scenario C: the interval is 0.01 s and the iteration takes 0.03 s. *)
Definition scenario_C : Tick :=
  observed (1 # 100) (3 # 100) (readings (Some 100) (Some 70)).

(** An iteration that overruns: the first iteration reads the counters at
    1.00 s and takes 0.03 s, so the second reads them at 1.03 s; the package
    counter advanced by 300000 microjoules in between. *)
Definition overrun_first : Tick :=
  observed 1 (3 # 100) (readings (Some 1000000) (Some 0)).

Definition overrun_second : Tick :=
  observed (103 # 100) (1 # 1000) (readings (Some 1300000) (Some 0)).

Definition overrun : Env :=
  {| max_files := fun _ => Some 262143328850;
     first_files := readings (Some 0) (Some 0);
     start_time := 0;
     ticks := [overrun_first; overrun_second] |}.

(** The rate of section 4.3 of the specification, in its words:
    [(delta / unit_scale) / interval_seconds], rounded to 3 decimal places,
    [interval_seconds] being the time measured since the previous tick. *)
Definition rate_over_measured_interval (delta : Z) (interval_seconds : Q) : Q :=
  py_round ((inject_Z delta / 1000000) / interval_seconds)%Q 3.

(** Scenario D: [buffer_size = 3] and five iterations, 10 ms apart, before
    Ctrl+C. *)
Definition scenario_D : Env :=
  {| max_files := fun _ => Some 262143328850;
     first_files := readings (Some 0) (Some 0);
     start_time := 0;
     ticks := [ observed (1 # 100) (1 # 1000) (readings (Some 100) (Some 10));
                observed (2 # 100) (1 # 1000) (readings (Some 200) (Some 20));
                observed (3 # 100) (1 # 1000) (readings (Some 300) (Some 30));
                observed (4 # 100) (1 # 1000) (readings (Some 400) (Some 40));
                observed (5 # 100) (1 # 1000) (readings (Some 500) (Some 50)) ] |}.

(** A run with the default buffer of 1000 rows that samples every 6 s and is
    interrupted after three iterations. *)
Definition slow_args : Args :=
  {| interval := 6; duration := 0; buffer_size := 1000 |}.

Definition slow_run : Env :=
  {| max_files := fun _ => Some 262143328850;
     first_files := readings (Some 0) (Some 0);
     start_time := 0;
     ticks := [ observed 0 (1 # 1000) (readings (Some 100) (Some 10));
                observed 6 (1 # 1000) (readings (Some 200) (Some 20));
                observed 12 (1 # 1000) (readings (Some 300) (Some 30)) ] |}.

(** The same run with [-b 1]: every iteration flushes. *)
Definition unbuffered_args : Args :=
  {| interval := 6; duration := 0; buffer_size := 1 |}.

(** A run during which the system clock is set back by half a second between
    the first and the second iteration ([time.time()] is the wall clock). *)
Definition clock_set_back : Env :=
  {| max_files := fun _ => Some 262143328850;
     first_files := readings (Some 0) (Some 0);
     start_time := 100;
     ticks := [ observed 101 (1 # 1000) (readings (Some 100) (Some 10));
                observed (1005 # 10) (1 # 1000)
                         (readings (Some 200) (Some 20)) ] |}.

(** Scenario D with a sixth iteration that starts 10 s after the start, the
    duration limit of [sample_args]. *)
Definition scenario_D_to_the_end : Env :=
  {| max_files := max_files scenario_D;
     first_files := first_files scenario_D;
     start_time := start_time scenario_D;
     ticks := ticks scenario_D ++
              [observed 10 (1 # 1000) (readings (Some 600) (Some 60))] |}.

(** Successive readings of the clock at line 174 do not decrease. *)
Definition clock_non_decreasing (ts : list Tick) : Prop :=
  forall i t1 t2,
    ts !! i = Some t1 -> ts !! S i = Some t2 ->
    (current_time t1 <= current_time t2)%Q.

(** ** The header of the file (line 154) *)

Definition fieldnames (domains : list string) : list string :=
  ["timestamp"; "elapsed_seconds"] ++ (column <$> domains).

(** ** Discovery of the domains: [get_available_domains] *)

(** The failures of the discovery: the [Exception]s the scripts raise
    themselves and the [OSError] of a file that cannot be read. *)
Inductive failure : Type :=
  | Exception (message : string)
  | OSError (path : string).

Inductive attempt (A : Type) : Type :=
  | Done (a : A)
  | Failed (f : failure).
Arguments Done {A} a.
Arguments Failed {A} f.

(** [d[k] = v] on a dictionary whose order matters: a new key goes to the
    end, a key that is present keeps its place and takes the new value. *)
Fixpoint dict_set {V : Type} (d : list (string * V)) (k : string) (v : V)
    : list (string * V) :=
  match d with
  | [] => [(k, v)]
  | (k', v') :: rest =>
      if decide (k' = k) then (k', v) :: rest
      else (k', v') :: dict_set rest k v
  end.

Definition RAPL_PATH : string := "/sys/class/powercap/intel-rapl".

(** [os.path.join(path, name)] for a directory entry [name]. *)
Definition path_join (path name : string) : string := path +:+ "/" +:+ name.

(** [s.startswith(prefix)]. *)
Definition startswith (s prefix : string) : bool := String.prefix prefix s.

(** What [os.listdir] and the [name] files show: an entry of a domain
    directory and an entry of [RAPL_PATH].  A name is the content of the
    entry's [name] file after [strip()], or [None] when the file cannot be
    opened. *)
Record SubDir : Type := {
  sub_entry : string;
  sub_name : option string
}.

Record DomainDir : Type := {
  dir_entry : string;
  dir_name : option string;
  dir_listing : list SubDir
}.

(** Lines 93-101: the subdomains of the domain [name]. *)
Fixpoint scan_subdomains (name domain_path : string) (listing : list SubDir)
    (domains : list (string * string)) : attempt (list (string * string)) :=
  match listing with
  | [] => Done domains
  | sub :: rest =>
      if startswith (sub_entry sub) "intel-rapl:" then
        let subdomain_path := path_join domain_path (sub_entry sub) in
        match sub_name sub with
        | None => Failed (OSError (path_join subdomain_path "name"))
        | Some subname =>
            scan_subdomains name domain_path rest
              (dict_set domains (name +:+ "-" +:+ subname) subdomain_path)
        end
      else scan_subdomains name domain_path rest domains
  end.

(** Lines 82-101. *)
Fixpoint scan_domains (listing : list DomainDir)
    (domains : list (string * string)) : attempt (list (string * string)) :=
  match listing with
  | [] => Done domains
  | dir :: rest =>
      if startswith (dir_entry dir) "intel-rapl:" then
        let domain_path := path_join RAPL_PATH (dir_entry dir) in
        match dir_name dir with
        | None => Failed (OSError (path_join domain_path "name"))
        | Some name =>
            match scan_subdomains name domain_path (dir_listing dir)
                    (dict_set domains name domain_path) with
            | Done domains1 => scan_domains rest domains1
            | Failed f => Failed f
            end
        end
      else scan_domains rest domains
  end.

(** [get_available_domains]: [sysfs] is [None] when [RAPL_PATH] does not
    exist and its listing otherwise. *)
Definition get_available_domains (sysfs : option (list DomainDir))
    : attempt (list (string * string)) :=
  match sysfs with
  | None =>
      Failed (Exception
        "RAPL sysfs interface not found. Ensure your CPU supports RAPL and it's enabled.")
  | Some listing => scan_domains listing []
  end.

(** The path of a directory under [RAPL_PATH] whose name starts with
    [intel-rapl:], or of something below it. *)
Definition under_RAPL_PATH (path : string) : Prop :=
  exists rest, path = RAPL_PATH +:+ "/intel-rapl:" +:+ rest.

(** ** The choice of the domains (lines 131-140) *)

Definition comma : Ascii.ascii := Ascii.ascii_of_nat 44.

(** [s.split(',')]. *)
Fixpoint split_commas (s : string) : list string :=
  match s with
  | EmptyString => [EmptyString]
  | String c rest =>
      if Ascii.eqb c comma then EmptyString :: split_commas rest
      else match split_commas rest with
           | piece :: pieces => String c piece :: pieces
           | [] => [String c EmptyString]
           end
  end.

(** [','.join(pieces)], the inverse of [split]. *)
Fixpoint join_commas (pieces : list string) : string :=
  match pieces with
  | [] => EmptyString
  | [piece] => piece
  | piece :: rest => piece +:+ String comma (join_commas rest)
  end.

(** [domains_arg] is [args.domains]: [None] without [--domains]. *)
Definition select_domains (all_domains : list (string * string))
    (domains_arg : option string) : list (string * string) :=
  match domains_arg with
  | None | Some EmptyString => all_domains
  | Some text =>
      let requested_domains := split_commas text in
      match filter (fun kv => kv.1 ∈ requested_domains) all_domains with
      | [] => all_domains
      | domains => domains
      end
  end.

(** The value [main] returns, from the discovery on: 1 when the discovery
    fails, finds nothing, or an exception leaves the loop, 0 otherwise.  The
    failures that [loop] leaves out, and that of [open(args.output, 'w')] at
    line 153, are left out here too; each of them makes [main] return 1. *)
Definition exit_code (sysfs : option (list DomainDir))
    (domains_arg : option string) (args : Args) (env : Env) : Z :=
  match get_available_domains sysfs with
  | Failed _ => 1
  | Done [] => 1
  | Done all_domains =>
      match main args (select_domains all_domains domains_arg).*1 env with
      | Ok _ => 0
      | Raise _ => 1
      end
  end.

(** A machine with one package, its core and dram subdomains, and the other
    entries that sysfs shows in these directories. *)
Definition sample_sysfs : option (list DomainDir) :=
  Some [ {| dir_entry := "intel-rapl:0";
            dir_name := Some "package-0";
            dir_listing :=
              [ {| sub_entry := "intel-rapl:0:0"; sub_name := Some "core" |};
                {| sub_entry := "energy_uj"; sub_name := None |};
                {| sub_entry := "intel-rapl:0:1"; sub_name := Some "dram" |} ]
         |};
         {| dir_entry := "enabled"; dir_name := None; dir_listing := [] |} ].

(** A machine whose powercap directory shows no RAPL domain. *)
Definition sysfs_without_rapl : option (list DomainDir) :=
  Some [ {| dir_entry := "enabled"; dir_name := None; dir_listing := [] |};
         {| dir_entry := "uevent"; dir_name := None; dir_listing := [] |} ].

(** ** The shape of the buffer and of the file *)

(** With a buffer of [b] rows, between two iterations: the buffer holds fewer
    than [b] rows, the file holds whole batches of [b] rows, [samples] counts
    both, and every status line printed so far reports a positive number of
    whole batches and a positive rate. *)
Definition batched (b : nat) (st : LoopState) : Prop :=
  (length (buffer st) < b)%nat /\
  (b | length (csvfile st))%nat /\
  samples st = Z.of_nat (length (csvfile st) + length (buffer st)) /\
  Forall (fun status =>
            0 < status_samples status /\
            (Z.of_nat b | status_samples status) /\
            (0 < status_rate status)%Q) (stdout st).

(** ** The GPU script: the NVML readers and the row of [idle_gpu.py] *)

(** What the NVML calls return for one handle in one iteration; [None] is an
    [NVMLError]. *)
Record NvmlReadings : Type := {
  power_usage : option Z;                 (* milliwatts *)
  temperature_gpu : option Z;
  utilization_rates : option (Z * Z);     (* gpu, memory *)
  clock_sm : option Z;
  clock_mem : option Z;
  memory_info : option (Z * Z * Z)        (* total, used, free, in bytes *)
}.

Definition get_gpu_power_nvml (r : NvmlReadings) : option Q :=
  (fun mw => inject_Z mw / 1000)%Q <$> power_usage r.

Definition get_gpu_utilization_nvml (r : NvmlReadings)
    : option Z * option Z :=
  match utilization_rates r with
  | Some (gpu, memory) => (Some gpu, Some memory)
  | None => (None, None)
  end.

Definition get_gpu_temperature_nvml (r : NvmlReadings) : option Z :=
  temperature_gpu r.

(** The dictionary with the keys ['total'], ['used'] and ['free'], in MB. *)
Definition get_gpu_memory_nvml (r : NvmlReadings)
    : option Q * option Q * option Q :=
  match memory_info r with
  | Some (total, used, free) =>
      (Some (inject_Z total / inject_Z (1024 * 1024))%Q,
       Some (inject_Z used / inject_Z (1024 * 1024))%Q,
       Some (inject_Z free / inject_Z (1024 * 1024))%Q)
  | None => (None, None, None)
  end.

(** Both clocks are read inside one [try]. *)
Definition get_clock_info_nvml (r : NvmlReadings) : option Z * option Z :=
  match clock_sm r with
  | Some sm_clock =>
      match clock_mem r with
      | Some mem_clock => (Some sm_clock, Some mem_clock)
      | None => (None, None)
      end
  | None => (None, None)
  end.

Record Gpu : Type := {
  gpu_index : nat;
  gpu_name : string
}.

(** [get_gpu_info_nvml], for the device count and the names NVML reports; the
    handle of a device is taken to be its index. *)
Definition get_gpu_info_nvml (device_count : nat) (names : nat -> string)
    : attempt (list Gpu) :=
  match device_count with
  | O => Failed (Exception "No NVIDIA GPUs found on the system.")
  | _ => Done ((fun i => {| gpu_index := i; gpu_name := names i |})
                 <$> seq 0 device_count)
  end.

(** [f"gpu{gpu['index']}"]. *)
Definition gpu_prefix (gpu : Gpu) : string := "gpu" +:+ pretty (gpu_index gpu).

Definition underscore : Ascii.ascii := Ascii.ascii_of_nat 95.

(** No character of [s] is [c]. *)
Fixpoint free_of (c : Ascii.ascii) (s : string) : bool :=
  match s with
  | EmptyString => true
  | String a rest => negb (Ascii.eqb a c) && free_of c rest
  end.

(** The columns of one GPU (lines 157-169). *)
Definition gpu_fields (minimal : bool) (prefix : string) : list string :=
  (prefix +:+ "_power_watts") ::
  (if minimal then []
   else [ prefix +:+ "_temperature_c";
          prefix +:+ "_utilization_gpu_percent";
          prefix +:+ "_utilization_memory_percent";
          prefix +:+ "_sm_clock_mhz";
          prefix +:+ "_mem_clock_mhz";
          prefix +:+ "_memory_used_mb" ]).

Definition gpu_fieldnames (minimal : bool) (gpus : list Gpu) : list string :=
  ["timestamp"; "elapsed_seconds"] ++
  (gpus ≫= fun gpu => gpu_fields minimal (gpu_prefix gpu)).

(** The body of [for gpu in gpus] (lines 205-223): the cells of one GPU. *)
Definition gpu_cells (minimal : bool) (prefix : string) (r : NvmlReadings)
    (row : gmap string (option Q)) : gmap string (option Q) :=
  let power := get_gpu_power_nvml r in
  let row := <[prefix +:+ "_power_watts" :=
                 (fun p => py_round p 3) <$> power]> row in
  if minimal then row
  else
    let temp := get_gpu_temperature_nvml r in
    let util := get_gpu_utilization_nvml r in
    let clocks := get_clock_info_nvml r in
    let memory := get_gpu_memory_nvml r in
    let row := <[prefix +:+ "_temperature_c" := inject_Z <$> temp]> row in
    let row := <[prefix +:+ "_utilization_gpu_percent" :=
                   inject_Z <$> util.1]> row in
    let row := <[prefix +:+ "_utilization_memory_percent" :=
                   inject_Z <$> util.2]> row in
    let row := <[prefix +:+ "_sm_clock_mhz" := inject_Z <$> clocks.1]> row in
    let row := <[prefix +:+ "_mem_clock_mhz" := inject_Z <$> clocks.2]> row in
    <[prefix +:+ "_memory_used_mb" :=
        (fun used => py_round used 2) <$> memory.1.2]> row.

(** The cells of a row after ['timestamp'] and ['elapsed_seconds'];
    [readings i] is what NVML returns for the device of index [i]. *)
Definition gpu_row (minimal : bool) (gpus : list Gpu)
    (readings : nat -> NvmlReadings) : gmap string (option Q) :=
  foldl (fun row gpu =>
           gpu_cells minimal (gpu_prefix gpu) (readings (gpu_index gpu)) row)
        ∅ gpus.

(** Two GPUs: for the first one the call for the memory clock fails, for the
    second all calls succeed. *)
Definition sample_nvml (index : nat) : NvmlReadings :=
  match index with
  | O => {| power_usage := Some 250000;
            temperature_gpu := Some 65;
            utilization_rates := Some (99, 40);
            clock_sm := Some 1410;
            clock_mem := None;
            memory_info := Some (42949672960, 1073741824, 41875931136) |}
  | _ => {| power_usage := Some 61234;
            temperature_gpu := Some 40;
            utilization_rates := Some (0, 0);
            clock_sm := Some 210;
            clock_mem := Some 1215;
            memory_info := Some (42949672960, 0, 42949672960) |}
  end.

(** ** The sampling loop of [idle_gpu.py] *)

Record GpuRow : Type := {
  gpu_timestamp : string;
  gpu_elapsed_seconds : Q;
  gpu_cells_of : gmap string (option Q)
}.

(** The status line of line 239. *)
Record GpuStatus : Type := {
  gpu_status_timestamp : string;
  gpu_status_samples : Z;
  gpu_status_rate : Q
}.

Record GpuLoopState : Type := {
  gpu_buffer : list GpuRow;
  gpu_samples : Z;
  gpu_last_status_time : Q;
  gpu_csvfile : list GpuRow;
  gpu_stdout : list GpuStatus
}.

(** What one iteration observes, in source order. *)
Record GpuTick : Type := {
  gpu_sample_start : Q;                   (* time.time(), line 187 *)
  gpu_current_time : Q;                   (* time.time(), line 190 *)
  gpu_now_iso : string;                   (* datetime.now().isoformat() *)
  nvml : nat -> NvmlReadings;             (* the NVML calls of lines 208-216 *)
  gpu_current : Q;                        (* time.time(), line 236 *)
  gpu_sample_end : Q                      (* time.time(), line 243 *)
}.

(** Lines 226-240. *)
Definition gpu_flush_and_report (args : Args) (start_time : Q)
    (st : GpuLoopState) (t : GpuTick) (row : GpuRow) : result GpuLoopState :=
  let buffer1 := gpu_buffer st ++ [row] in
  let samples1 := gpu_samples st + 1 in
  if buffer_size args <=? Z.of_nat (length buffer1) then
    let csvfile1 := gpu_csvfile st ++ buffer1 in
    if Qle_bool 5 (gpu_current t - gpu_last_status_time st) then
      rate ← truediv (inject_Z samples1) (gpu_current t - start_time);
      Ok {| gpu_buffer := [];
            gpu_samples := samples1;
            gpu_last_status_time := gpu_current t;
            gpu_csvfile := csvfile1;
            gpu_stdout := gpu_stdout st ++
              [ {| gpu_status_timestamp := gpu_timestamp row;
                   gpu_status_samples := samples1;
                   gpu_status_rate := rate |} ] |}
    else
      Ok {| gpu_buffer := [];
            gpu_samples := samples1;
            gpu_last_status_time := gpu_last_status_time st;
            gpu_csvfile := csvfile1;
            gpu_stdout := gpu_stdout st |}
  else
    Ok {| gpu_buffer := buffer1;
          gpu_samples := samples1;
          gpu_last_status_time := gpu_last_status_time st;
          gpu_csvfile := gpu_csvfile st;
          gpu_stdout := gpu_stdout st |}.

Inductive gpu_outcome : Type :=
  | GpuBreak
  | GpuSampled (st : GpuLoopState) (row : GpuRow) (sleep_for : Q).

(** One iteration of the loop of lines 186-246. *)
Definition gpu_tick (args : Args) (minimal : bool) (gpus : list Gpu)
    (start_time : Q) (st : GpuLoopState) (t : GpuTick) : result gpu_outcome :=
  let elapsed := (gpu_current_time t - start_time)%Q in
  if (0 <? duration args) && Qle_bool (inject_Z (duration args)) elapsed
  then Ok GpuBreak
  else
    let row := {| gpu_timestamp := gpu_now_iso t;
                  gpu_elapsed_seconds := py_round elapsed 6;
                  gpu_cells_of := gpu_row minimal gpus (nvml t) |} in
    st1 ← gpu_flush_and_report args start_time st t row;
    let sample_time := (gpu_sample_end t - gpu_sample_start t)%Q in
    Ok (GpuSampled st1 row (Qmax 0 (interval args - sample_time))).

(** The loop, with Ctrl+C taken between two iterations, and the file, [print]
    and [time.sleep] taken to return, as for the CPU script. *)
Fixpoint gpu_loop (args : Args) (minimal : bool) (gpus : list Gpu)
    (start_time : Q) (st : GpuLoopState) (ticks : list GpuTick)
    : result (stop * GpuLoopState * list GpuRow) :=
  match ticks with
  | [] => Ok (Interrupted, st, [])
  | t :: rest =>
      o ← gpu_tick args minimal gpus start_time st t;
      match o with
      | GpuBreak => Ok (DurationReached, st, [])
      | GpuSampled st1 row _ =>
          r ← gpu_loop args minimal gpus start_time st1 rest;
          Ok (r.1.1, r.1.2, row :: r.2)
      end
  end.

Record GpuOutput : Type := {
  gpu_data_rows : list GpuRow;
  gpu_printed : list GpuStatus;
  gpu_sample_count : Z;
  gpu_appended : list GpuRow;
  gpu_ended : stop
}.

Definition gpu_initial_state (start_time : Q) : GpuLoopState :=
  {| gpu_buffer := [];
     gpu_samples := 0;
     gpu_last_status_time := start_time;
     gpu_csvfile := [];
     gpu_stdout := [] |}.

(** [main] of [idle_gpu.py] from line 175 to line 253, for the devices
    [gpus]. *)
Definition gpu_main (args : Args) (minimal : bool) (gpus : list Gpu)
    (start_time : Q) (ticks : list GpuTick) : result GpuOutput :=
  r ← gpu_loop args minimal gpus start_time
              (gpu_initial_state start_time) ticks;
  Ok {| gpu_data_rows :=
          match gpu_buffer r.1.2 with
          | [] => gpu_csvfile r.1.2
          | _ :: _ => gpu_csvfile r.1.2 ++ gpu_buffer r.1.2
          end;
        gpu_printed := gpu_stdout r.1.2;
        gpu_sample_count := gpu_samples r.1.2;
        gpu_appended := r.2;
        gpu_ended := r.1.1 |}.

(** Five iterations of the GPU loop, 10 ms apart, before Ctrl+C. *)
Definition gpu_observed (t0 : Q) : GpuTick :=
  {| gpu_sample_start := t0;
     gpu_current_time := t0;
     gpu_now_iso := "2025-01-01T00:00:00";
     nvml := sample_nvml;
     gpu_current := (t0 + (1 # 1000))%Q;
     gpu_sample_end := (t0 + (1 # 1000))%Q |}.

Definition gpu_five_ticks : list GpuTick :=
  gpu_observed <$> [1 # 100; 2 # 100; 3 # 100; 4 # 100; 5 # 100]%Q.

(** Iterations of the GPU loop with [-i 0] and a clock that stands still. *)
Definition gpu_still_tick : GpuTick :=
  {| gpu_sample_start := 7;
     gpu_current_time := 7;
     gpu_now_iso := "2025-01-01T00:00:00";
     nvml := sample_nvml;
     gpu_current := 7;
     gpu_sample_end := 7 |}.

(** * Properties *)

(** ** Rounding *)

Section Rounding.
Local Open Scope Q_scope.

Lemma round_half_even_bounds q :
  (Qfloor q <= round_half_even q <= Qfloor q + 1)%Z.
Proof.
  unfold round_half_even.
  destruct (Qcompare _ _); [destruct (Z.even _)|..]; lia.
Qed.

Lemma round_half_even_inject_Z z : round_half_even (inject_Z z) = z.
Proof.
  unfold round_half_even. rewrite Qfloor_Z.
  destruct (Qcompare_spec (inject_Z z - inject_Z z) (1 # 2)) as [H|H|H];
    [exfalso; lra | reflexivity | exfalso; lra].
Qed.

Lemma round_half_even_mono q1 q2 :
  q1 <= q2 -> (round_half_even q1 <= round_half_even q2)%Z.
Proof.
  intros Hle.
  pose proof (Qfloor_resp_le _ _ Hle) as Hf.
  pose proof (round_half_even_bounds q1) as B1.
  pose proof (round_half_even_bounds q2) as B2.
  destruct (Z.eq_dec (Qfloor q1) (Qfloor q2)) as [Heq | Hne]; [| lia].
  clear B1 B2 Hf. unfold round_half_even. rewrite <- Heq.
  destruct (Qcompare_spec (q1 - inject_Z (Qfloor q1)) (1 # 2)) as [H1|H1|H1];
  destruct (Qcompare_spec (q2 - inject_Z (Qfloor q1)) (1 # 2)) as [H2|H2|H2];
    try destruct (Z.even _); try lia; exfalso; lra.
Qed.

Lemma scale_pos n : 0 < inject_Z (10 ^ Z.of_nat n).
Proof.
  replace 0 with (inject_Z 0) by reflexivity. rewrite <- Zlt_Qlt.
  apply Z.pow_pos_nonneg; lia.
Qed.

Lemma py_round_mono x y n : x <= y -> py_round x n <= py_round y n.
Proof.
  intros Hle. unfold py_round.
  pose proof (scale_pos n) as Hs.
  apply Qle_shift_div_l; [exact Hs|].
  unfold Qdiv. rewrite <- Qmult_assoc, (Qmult_comm (/ _)), Qmult_inv_r, Qmult_1_r by lra.
  rewrite <- Zle_Qle. apply round_half_even_mono.
  apply Qmult_le_compat_r; lra.
Qed.

Lemma py_round_inject_Z z n : py_round (inject_Z z) n == inject_Z z.
Proof.
  unfold py_round. pose proof (scale_pos n) as Hs.
  rewrite <- inject_Z_mult, round_half_even_inject_Z, inject_Z_mult.
  field. lra.
Qed.

Lemma py_round_le_Z x z n : x <= inject_Z z -> py_round x n <= inject_Z z.
Proof.
  intros H. rewrite <- (py_round_inject_Z z n). by apply py_round_mono.
Qed.
End Rounding.

(** ** Column names and dictionaries *)

Lemma length_append_suffix (d s : string) :
  String.length (d +:+ s) = (String.length d + String.length s)%nat.
Proof. induction d as [|a d IH]; simpl; [reflexivity | by rewrite IH]. Qed.

Lemma column_inj (d1 d2 : string) : column d1 = column d2 -> d1 = d2.
Proof.
  unfold column. generalize "_power_watts"%string as s. intros s.
  revert d2. induction d1 as [|a d1 IH]; intros [|b d2] H.
  - reflexivity.
  - apply (f_equal String.length) in H.
    rewrite !length_append_suffix in H. simpl in H. exfalso. lia.
  - apply (f_equal String.length) in H.
    rewrite !length_append_suffix in H. simpl in H. exfalso. lia.
  - change (String a (d1 +:+ s) = String b (d2 +:+ s)) in H.
    injection H as -> H. f_equal. by apply IH.
Qed.

(** Reading: every monitored domain gets its key. *)
Lemma read_energy_values_lookup self files d :
  d ∈ domain_paths self ->
  read_energy_values self files !! d = Some (files d).
Proof.
  unfold read_energy_values.
  generalize (∅ : gmap string (option Z)) as acc.
  induction (domain_paths self) as [|x l IH]; intros acc Hin.
  - by apply elem_of_nil in Hin.
  - simpl. destruct (decide (d ∈ l)) as [Hl | Hl]; [by apply IH|].
    apply elem_of_cons in Hin as [-> | ?]; [|done].
    clear IH. revert acc. induction l as [|y l IH]; intros acc; simpl.
    + apply lookup_insert_eq.
    + apply not_elem_of_cons in Hl as [Hxy Hl].
      rewrite insert_insert_ne by done. by apply IH.
Qed.

Lemma RaplReader_init_max domains mf d :
  d ∈ domains ->
  is_Some (get_max_energy (RaplReader_init domains mf) d).
Proof.
  unfold get_max_energy, RaplReader_init; simpl.
  generalize (∅ : gmap string Z) as acc.
  induction domains as [|x l IH]; intros acc Hin.
  - by apply elem_of_nil in Hin.
  - simpl. destruct (decide (d ∈ l)) as [Hl | Hl]; [by apply IH|].
    apply elem_of_cons in Hin as [-> | ?]; [|done].
    assert (Hkeep : forall (l : list string) (acc : gmap string Z), is_Some (acc !! x) ->
      is_Some (foldl (fun acc domain => match mf domain with
                | Some v => <[domain := v]> acc
                | None => <[domain := 2 ^ 32]> acc
                end) acc l !! x)).
    { clear. induction l as [|y l IH]; intros acc Hs; simpl; [done|].
      apply IH. destruct (mf y); rewrite lookup_insert_is_Some; 
       destruct (decide (y = x)); auto. }
    apply Hkeep. destruct (mf x); rewrite lookup_insert_eq; eauto.
Qed.

(** ** The delta of two readings *)

(** The fallback of line 44 when [max_energy_range_uj] cannot be read. *)
Example max_energy_fallback :
  get_max_energy (RaplReader_init ["package-0"] (fun _ => None)) "package-0"
  = Some 4294967296.
Proof. vm_compute. reflexivity. Qed.

(** C1. With both readings in [0, max_value), the delta is [curr - prev] when
    the counter did not wrap and [curr - prev + max_value] when it did, and it
    lies in [0, max_value). *)
Theorem energy_diff_wraparound (prev curr max_value : Z) :
  0 <= prev < max_value ->
  0 <= curr < max_value ->
  exists delta,
    energy_diff prev curr (Some max_value) = Ok delta /\
    (prev <= curr -> delta = curr - prev) /\
    (curr < prev -> delta = curr - prev + max_value) /\
    0 <= delta < max_value.
Proof.
  intros Hp Hc. unfold energy_diff.
  destruct (Z.ltb_spec (curr - prev) 0) as [Hlt | Hge].
  - exists (curr - prev + max_value). repeat split; lia.
  - exists (curr - prev). repeat split; lia.
Qed.

Lemma energy_diff_wraparound_witness :
  exists delta,
    energy_diff 7 3 (Some 10) = Ok delta /\
    (7 <= 3 -> delta = 3 - 7) /\
    (3 < 7 -> delta = 3 - 7 + 10) /\
    0 <= delta < 10.
Proof. apply (energy_diff_wraparound 7 3 10); lia. Defined.

(** C2 (as amended). Scenario A: [prev = 4000000000], [curr = 1000000] and
    [max_value = 2^32 = 4294967296] give the delta
    [1000000 - 4000000000 + 4294967296 = 295967296]. *)
Theorem energy_diff_scenario_A :
  energy_diff 4000000000 1000000 (Some 4294967296) = Ok 295967296.
Proof. vm_compute. reflexivity. Qed.

(** C2 as the specification words it: the delta of scenario A is not
    [1296967296]. *)
Lemma energy_diff_scenario_A_not_1296967296 :
  energy_diff 4000000000 1000000 (Some 4294967296) <> Ok 1296967296.
Proof. vm_compute. discriminate. Qed.

(** ** One iteration *)

Lemma bind_Ok {A B : Type} (m : result A) (k : A -> result B) (b : B) :
  (m ≫= k) = Ok b -> exists a, m = Ok a /\ k a = Ok b.
Proof. destruct m as [a | e]; [eauto | discriminate]. Qed.

Section Columns.
Variables (self : RaplReader) (args : Args).
Variables (prev current_energy : gmap string (option Z)) (t : Tick).

Abbreviation power := (domain_power self args prev current_energy t).
Abbreviation columns := (power_columns self args prev current_energy t).

Lemma power_columns_other domains row cols k :
  columns domains row = Ok cols ->
  (forall d, d ∈ domains -> column d <> k) ->
  cols !! k = row !! k.
Proof.
  revert row. induction domains as [|x l IH]; intros row H Hk; simpl in H.
  - by injection H as <-.
  - apply bind_Ok in H as (v & _ & H).
    rewrite (IH _ H) by (intros d Hd; apply Hk; by right).
    apply lookup_insert_ne, Hk. by left.
Qed.

Lemma power_columns_lookup domains row cols d :
  columns domains row = Ok cols ->
  d ∈ domains ->
  exists v, power d = Ok v /\ cols !! column d = Some v.
Proof.
  revert row. induction domains as [|x l IH]; intros row H Hd; simpl in H.
  - by apply elem_of_nil in Hd.
  - apply bind_Ok in H as (v & Hv & H).
    destruct (decide (d ∈ l)) as [Hl | Hl]; [by eapply IH|].
    apply elem_of_cons in Hd as [-> | ?]; [|done].
    exists v. split; [exact Hv|].
    rewrite (power_columns_other _ _ _ _ H).
    + apply lookup_insert_eq.
    + intros d Hd Heq. apply column_inj in Heq. by subst.
Qed.

Lemma power_columns_Ok domains row :
  (forall d, d ∈ domains -> exists v, power d = Ok v) ->
  exists cols, columns domains row = Ok cols.
Proof.
  revert row. induction domains as [|x l IH]; intros row H; simpl.
  - eauto.
  - destruct (H x) as [v Hv]; [by left|].
    rewrite Hv. simpl.
    apply IH. intros d Hd. apply H. by right.
Qed.

Lemma domain_power_None d :
  is_Some (prev !! d) ->
  is_Some (current_energy !! d) ->
  prev !! d = Some None \/ current_energy !! d = Some None ->
  power d = Ok None.
Proof.
  intros [p Hp] [c Hc] Hnone. unfold domain_power, subscript.
  rewrite Hp, Hc. simpl.
  destruct p as [p|]; [|reflexivity]. simpl.
  destruct c as [c|]; [|reflexivity].
  destruct Hnone; congruence.
Qed.

Lemma domain_power_not_ZeroDivisionError d :
  ~ (actual_interval args t == 0)%Q ->
  power d <> Raise ZeroDivisionError.
Proof.
  intros Hnz. unfold domain_power, subscript, energy_diff, truediv.
  destruct (prev !! d) as [[p|]|]; simpl; try discriminate.
  destruct (current_energy !! d) as [[c|]|]; simpl; try discriminate.
  destruct (c - p <? 0); [destruct (get_max_energy self d)|]; simpl;
    try discriminate;
    (destruct (Qeq_bool (actual_interval args t) 0) eqn:E;
     [apply Qeq_bool_eq in E; contradiction | discriminate]).
Qed.
End Columns.

Lemma tick_Sampled_inv self args start st t st' row s :
  tick self args start st t = Ok (Sampled st' row s) ->
  duration_reached args start t = false /\
  exists cols,
    power_columns self args (prev_energy st)
      (read_energy_values self (energy_files t)) t (domain_paths self) ∅
      = Ok cols /\
    row = {| timestamp := now_iso t;
             elapsed_seconds := py_round (current_time t - start) 6;
             power_watts := cols |} /\
    flush_and_report self args start st
      (read_energy_values self (energy_files t)) t row = Ok st' /\
    s = sleep_time args t.
Proof.
  unfold tick. intros H.
  destruct (duration_reached args start t); [discriminate|].
  split; [reflexivity|].
  apply bind_Ok in H as (cols & Hc & H).
  apply bind_Ok in H as (st1 & Hf & H).
  injection H as -> <- <-. eauto.
Qed.

(** The flush of lines 214-217 and the status line of lines 219-226, read off
    the state that [flush_and_report] returns. *)
Lemma flush_and_report_inv self args start st cur t row st' :
  flush_and_report self args start st cur t row = Ok st' ->
  prev_energy st' = cur /\
  samples st' = samples st + 1 /\
  (if buffer_size args <=? Z.of_nat (length (buffer st)) + 1
   then csvfile st' = csvfile st ++ buffer st ++ [row] /\ buffer st' = []
   else csvfile st' = csvfile st /\ buffer st' = buffer st ++ [row]) /\
  (if (buffer_size args <=? Z.of_nat (length (buffer st)) + 1) &&
      Qle_bool 5 (current t - last_status_time st)
   then exists status,
          stdout st' = stdout st ++ [status] /\
          status_samples status = samples st + 1 /\
          truediv (inject_Z (samples st + 1)) (current t - start)
            = Ok (status_rate status) /\
          last_status_time st' = current t
   else stdout st' = stdout st /\
        last_status_time st' = last_status_time st).
Proof.
  unfold flush_and_report. rewrite length_app. simpl length.
  replace (Z.of_nat (length (buffer st) + 1)) with
    (Z.of_nat (length (buffer st)) + 1) by lia.
  destruct (buffer_size args <=? _); simpl.
  - destruct (Qle_bool 5 _).
    + intros H. apply bind_Ok in H as (rate & Hr & H).
      injection H as <-. simpl.
      repeat split; eauto.
    + intros H. injection H as <-. done.
  - intros H. injection H as <-. done.
Qed.

Lemma flush_and_report_Ok self args start st cur t row :
  (start <= last_status_time st)%Q ->
  exists st', flush_and_report self args start st cur t row = Ok st'.
Proof.
  intros Hlast. unfold flush_and_report.
  destruct (buffer_size args <=? _); [|eauto].
  destruct (Qle_bool 5 _) eqn:E; [|eauto].
  apply Qle_bool_iff in E. unfold truediv.
  destruct (Qeq_bool (current t - start) 0) eqn:Ez; [|simpl; eauto].
  apply Qeq_bool_eq in Ez. exfalso. lra.
Qed.

Lemma initial_state_invariant self env :
  loop_invariant self (start_time env) (initial_state self env).
Proof.
  split; simpl.
  - intros d Hd. rewrite read_energy_values_lookup by done. eauto.
  - apply Qle_refl.
Qed.

Lemma tick_invariant self args start st t st' row s :
  loop_invariant self start st ->
  tick self args start st t = Ok (Sampled st' row s) ->
  loop_invariant self start st'.
Proof.
  intros [_ Hlast] H.
  apply tick_Sampled_inv in H as (_ & cols & _ & _ & H & _).
  apply flush_and_report_inv in H as (Hprev & _ & _ & Hstatus).
  split.
  - intros d Hd. rewrite Hprev, read_energy_values_lookup by done. eauto.
  - destruct (buffer_size args <=? _); simpl in Hstatus;
      [destruct (Qle_bool 5 _) eqn:E|].
    + destruct Hstatus as (_ & _ & _ & _ & ->).
      apply Qle_bool_iff in E. lra.
    + destruct Hstatus as [_ ->]. exact Hlast.
    + destruct Hstatus as [_ ->]. exact Hlast.
Qed.

(** C3. When the previous or the current reading of a domain is [None], the
    power computed for the domain is [None] (no delta, no rate, no exception),
    the row of that tick holds [None] under the domain's column, and the tick
    appends its row as long as the domains whose two readings are both
    integers compute their power: the failed read never aborts the run. *)
Theorem failed_read_gives_None_power self args start st t d :
  loop_invariant self start st ->
  d ∈ domain_paths self ->
  prev_energy st !! d = Some None \/ energy_files t d = None ->
  let current_energy := read_energy_values self (energy_files t) in
  let power := domain_power self args (prev_energy st) current_energy t in
  power d = Ok None /\
  (forall st' row s,
     tick self args start st t = Ok (Sampled st' row s) ->
     power_watts row !! column d = Some None) /\
  (duration_reached args start t = false ->
   (forall d' p c,
      d' ∈ domain_paths self ->
      prev_energy st !! d' = Some (Some p) ->
      energy_files t d' = Some c ->
      exists v, power d' = Ok v) ->
   exists st' row s,
     tick self args start st t = Ok (Sampled st' row s) /\
     power_watts row !! column d = Some None).
Proof.
  intros [Hkeys Hlast] Hd Hnone current_energy power.
  assert (Hcur : forall d', d' ∈ domain_paths self ->
            current_energy !! d' = Some (energy_files t d')).
  { intros d' Hd'. by apply read_energy_values_lookup. }
  assert (Hp : power d = Ok None).
  { apply domain_power_None; [by apply Hkeys | rewrite Hcur; eauto |].
    destruct Hnone as [? | Hf]; [by left | right]. by rewrite Hcur, Hf. }
  assert (Hrow : forall st' row s,
            tick self args start st t = Ok (Sampled st' row s) ->
            power_watts row !! column d = Some None).
  { intros st' row s H.
    apply tick_Sampled_inv in H as (_ & cols & Hcols & -> & _).
    destruct (power_columns_lookup _ _ _ _ _ _ _ _ d Hcols Hd) as (v & Hv & Hl).
    simpl. rewrite Hl. f_equal.
    unfold power, current_energy in Hp. congruence. }
  repeat split; [exact Hp | exact Hrow |].
  intros Hdur Hothers.
  destruct (power_columns_Ok self args (prev_energy st) current_energy t
              (domain_paths self) ∅) as [cols Hcols].
  { intros d' Hd'. destruct (Hkeys d' Hd') as [[p|] Hprev].
    - destruct (energy_files t d') as [c|] eqn:Hf; [by eapply Hothers|].
      exists None. apply domain_power_None; [eauto | rewrite Hcur; eauto |].
      right. by rewrite Hcur, Hf.
    - exists None. apply domain_power_None; [eauto | rewrite Hcur; eauto |].
      by left. }
  destruct (flush_and_report_Ok self args start st current_energy t
              {| timestamp := now_iso t;
                 elapsed_seconds := py_round (current_time t - start) 6;
                 power_watts := cols |} Hlast) as [st' Hst'].
  assert (Htick : tick self args start st t =
            Ok (Sampled st' {| timestamp := now_iso t;
                 elapsed_seconds := py_round (current_time t - start) 6;
                 power_watts := cols |} (sleep_time args t))).
  { unfold tick. rewrite Hdur. fold current_energy. rewrite Hcols. simpl.
    rewrite Hst'. reflexivity. }
  eexists _, _, _. split; [exact Htick | by eapply Hrow].
Qed.

Lemma failed_read_gives_None_power_witness :
  domain_power sample_reader sample_args
    (prev_energy (initial_state sample_reader scenario_B))
    (read_energy_values sample_reader (energy_files scenario_B_failed))
    scenario_B_failed "dram" = Ok None /\
  exists st' row s,
    tick sample_reader sample_args 0
      (initial_state sample_reader scenario_B) scenario_B_failed
      = Ok (Sampled st' row s) /\
    power_watts row !! column "dram" = Some None.
Proof.
  destruct (failed_read_gives_None_power sample_reader sample_args 0
              (initial_state sample_reader scenario_B) scenario_B_failed "dram")
    as (Hp & _ & Hrun).
  - apply (initial_state_invariant sample_reader scenario_B).
  - simpl. apply elem_of_cons. right. apply elem_of_cons. by left.
  - right. reflexivity.
  - split; [exact Hp|]. apply Hrun; [reflexivity|].
    intros d' p c Hd' _ _.
    apply elem_of_cons in Hd' as [-> | Hd'];
      [| apply elem_of_cons in Hd' as [-> | Hd'];
         [| by apply elem_of_nil in Hd']];
      vm_compute; eauto.
Defined.

Lemma domain_power_Ok_None self args prev current_energy t d v :
  domain_power self args prev current_energy t d = Ok v ->
  prev !! d = Some None \/ current_energy !! d = Some None ->
  v = None.
Proof.
  unfold domain_power, subscript.
  destruct (prev !! d) as [[p|]|]; simpl; try discriminate.
  - destruct (current_energy !! d) as [[c|]|]; simpl; try discriminate.
    + intros _ [? | ?]; discriminate.
    + by intros [= <-].
  - by intros [= <-].
Qed.

(** C10. A failed read is stored as the previous reading (line 207), so the
    domain's power is [None] in the row of the failing tick and in the row of
    the tick that follows it, whatever that tick reads. *)
Theorem failed_read_blanks_next_tick
    self args start st t1 st1 row1 s1 t2 st2 row2 s2 d :
  d ∈ domain_paths self ->
  energy_files t1 d = None ->
  tick self args start st t1 = Ok (Sampled st1 row1 s1) ->
  tick self args start st1 t2 = Ok (Sampled st2 row2 s2) ->
  prev_energy st1 !! d = Some None /\
  power_watts row1 !! column d = Some None /\
  power_watts row2 !! column d = Some None.
Proof.
  intros Hd Hfail H1 H2.
  apply tick_Sampled_inv in H1 as (_ & cols1 & Hcols1 & -> & Hf1 & _).
  apply tick_Sampled_inv in H2 as (_ & cols2 & Hcols2 & -> & _ & _).
  apply flush_and_report_inv in Hf1 as (Hprev & _).
  assert (Hstored : prev_energy st1 !! d = Some None).
  { rewrite Hprev, read_energy_values_lookup by done. by rewrite Hfail. }
  destruct (power_columns_lookup _ _ _ _ _ _ _ _ d Hcols1 Hd) as (v1 & Hv1 & Hl1).
  destruct (power_columns_lookup _ _ _ _ _ _ _ _ d Hcols2 Hd) as (v2 & Hv2 & Hl2).
  apply domain_power_Ok_None in Hv1;
    [| right; rewrite read_energy_values_lookup by done; by rewrite Hfail].
  apply domain_power_Ok_None in Hv2; [| by left].
  subst v1 v2. simpl. auto.
Qed.

Lemma failed_read_blanks_next_tick_witness :
  exists st1 row1 s1 st2 row2 s2,
    tick sample_reader sample_args 0
      (initial_state sample_reader scenario_B) scenario_B_failed
      = Ok (Sampled st1 row1 s1) /\
    tick sample_reader sample_args 0 st1 scenario_B_recovered
      = Ok (Sampled st2 row2 s2) /\
    energy_files scenario_B_recovered "dram" = Some 70 /\
    prev_energy st1 !! "dram" = Some None /\
    power_watts row1 !! column "dram" = Some None /\
    power_watts row2 !! column "dram" = Some None.
Proof.
  destruct (tick sample_reader sample_args 0
              (initial_state sample_reader scenario_B) scenario_B_failed)
    as [[|st1 row1 s1] | e] eqn:H1;
    [vm_compute in H1; discriminate | | vm_compute in H1; discriminate].
  destruct (tick sample_reader sample_args 0 st1 scenario_B_recovered)
    as [[|st2 row2 s2] | e] eqn:H2.
  - exfalso. vm_compute in H1. injection H1 as <- _ _.
    vm_compute in H2. discriminate.
  - exists st1, row1, s1, st2, row2, s2.
    split; [reflexivity|]. split; [exact H2|]. split; [reflexivity|].
    apply (failed_read_blanks_next_tick sample_reader sample_args 0
             (initial_state sample_reader scenario_B)
             scenario_B_failed st1 row1 s1
             scenario_B_recovered st2 row2 s2 "dram");
      [| reflexivity | exact H1 | exact H2].
    simpl. apply elem_of_cons. right. apply elem_of_cons. by left.
  - exfalso. vm_compute in H1. injection H1 as <- _ _.
    vm_compute in H2. discriminate.
Defined.

(** C4. The divisor of line 200 is not the time measured since the previous
    tick.  In the run [overrun] the two readings of the package counter are
    0.03 s and 300000 microjoules apart, a rate of 10 W; the row of the second
    tick holds 30 W, the rate over the configured interval of 0.01 s. *)
Theorem actual_interval_is_the_configured_one :
  exists o r1 r2 v,
    main sample_args sample_domains overrun = Ok o /\
    data_rows o = [r1; r2] /\
    power_watts r2 !! column "package-0" = Some (Some v) /\
    (v == 30)%Q /\
    (v == rate_over_measured_interval 300000 (interval sample_args))%Q /\
    (rate_over_measured_interval 300000
       (current_time overrun_second - current_time overrun_first) == 10)%Q.
Proof.
  eexists _, _, _, _.
  split; [vm_compute; reflexivity|].
  split; [vm_compute; reflexivity|].
  split; [vm_compute; reflexivity|].
  repeat split; vm_compute; reflexivity.
Qed.

(** C5 (as amended). The divisor of line 200 is not clamped; it is positive,
    and the division of line 201 raises no [ZeroDivisionError], whenever the
    configured interval is positive and the clock does not go back between
    the two readings of lines 171 and 174. *)
Theorem actual_interval_positive args t :
  (0 < interval args)%Q ->
  (sample_start t <= current_time t)%Q ->
  (0 < actual_interval args t)%Q /\
  forall self prev current_energy d,
    domain_power self args prev current_energy t d <> Raise ZeroDivisionError.
Proof.
  intros Hi Hclock.
  assert (Hpos : (0 < actual_interval args t)%Q)
    by (unfold actual_interval; lra).
  split; [exact Hpos|]. intros self prev current_energy d.
  apply domain_power_not_ZeroDivisionError. lra.
Qed.

Lemma actual_interval_positive_witness :
  (0 < actual_interval sample_args scenario_C)%Q /\
  domain_power sample_reader sample_args
    (prev_energy (initial_state sample_reader scenario_B))
    (read_energy_values sample_reader (energy_files scenario_C))
    scenario_C "package-0" <> Raise ZeroDivisionError.
Proof.
  destruct (actual_interval_positive sample_args scenario_C) as [Hpos Hdiv].
  - reflexivity.
  - vm_compute. discriminate.
  - split; [exact Hpos | apply Hdiv].
Defined.

(** C5 as the specification words it: with [-i 0] and two clock readings that
    are equal, the divisor is 0 and the division of line 201 raises
    [ZeroDivisionError], which ends the run. *)
Lemma zero_interval_divides_by_zero :
  (actual_interval zero_interval_args scenario_B_failed == 0)%Q /\
  main zero_interval_args sample_domains scenario_B = Raise ZeroDivisionError.
Proof. split; vm_compute; reflexivity. Qed.

(** C6. The loop sleeps for [max(0, interval - processing_time)]: nothing when
    the iteration took at least the interval, the rest of the interval
    otherwise.  The sleep depends on the current iteration only. *)
Theorem sleep_is_rest_of_interval self args start st t st' row s :
  tick self args start st t = Ok (Sampled st' row s) ->
  let processing_time := (sample_end t - sample_start t)%Q in
  s = Qmax 0 (interval args - processing_time) /\
  (0 <= s)%Q /\
  ((interval args <= processing_time)%Q -> s = 0%Q) /\
  ((processing_time < interval args)%Q ->
   s = (interval args - processing_time)%Q).
Proof.
  intros H processing_time.
  apply tick_Sampled_inv in H as (_ & _ & _ & _ & _ & ->).
  unfold sleep_time. fold processing_time.
  split; [reflexivity|]. split; [apply Q.le_max_l|].
  unfold Qmax, GenericMinMax.gmax.
  destruct (Qcompare_spec 0 (interval args - processing_time)) as [E|E|E];
    split; intros; try reflexivity; exfalso; lra.
Qed.

Lemma sleep_is_rest_of_interval_witness :
  exists st' row s,
    tick sample_reader sample_args 0
      (initial_state sample_reader scenario_B) scenario_C
      = Ok (Sampled st' row s) /\
    s = 0%Q.
Proof.
  destruct (tick sample_reader sample_args 0
              (initial_state sample_reader scenario_B) scenario_C)
    as [[|st' row s] | e] eqn:H;
    [vm_compute in H; discriminate | | vm_compute in H; discriminate].
  exists st', row, s. split; [reflexivity|].
  apply (sleep_is_rest_of_interval _ _ _ _ _ _ _ _ H).
  vm_compute. discriminate.
Defined.

(** ** The whole loop *)

Lemma loop_cons_inv self args start st t rest why st' rows :
  loop self args start st (t :: rest) = Ok (why, st', rows) ->
  (tick self args start st t = Ok Break /\
   why = DurationReached /\ st' = st /\ rows = []) \/
  (exists st1 row s rows',
     tick self args start st t = Ok (Sampled st1 row s) /\
     loop self args start st1 rest = Ok (why, st', rows') /\
     rows = row :: rows').
Proof.
  simpl. intros H. apply bind_Ok in H as ([|st1 row s] & Ht & H).
  - left. by injection H as <- <- <-.
  - right. apply bind_Ok in H as ([[w s1] rs] & Hl & H). simpl in H.
    injection H as <- <- <-. eauto 10.
Qed.

(** Every appended row is in the file or in the buffer, in the order of
    appending, and [samples] counts them. *)
Lemma loop_rows self args start ticks :
  forall st why st' rows,
    loop self args start st ticks = Ok (why, st', rows) ->
    csvfile st' ++ buffer st' = csvfile st ++ buffer st ++ rows /\
    samples st' = samples st + Z.of_nat (length rows).
Proof.
  induction ticks as [|t rest IH]; intros st why st' rows H.
  - injection H as <- <- <-. rewrite app_nil_r. simpl. split; [done | lia].
  - apply loop_cons_inv in H
      as [(_ & _ & -> & ->) | (st1 & row & s & rows' & Ht & Hl & ->)].
    + rewrite app_nil_r. simpl. split; [done | lia].
    + apply IH in Hl as [Hfile Hcount].
      apply tick_Sampled_inv in Ht as (_ & _ & _ & _ & Hf & _).
      apply flush_and_report_inv in Hf as (_ & Hs & Hflush & _).
      split.
      * rewrite Hfile.
        destruct (buffer_size args <=? _); destruct Hflush as [-> ->];
          simpl; rewrite <- ?app_assoc; reflexivity.
      * rewrite Hcount, Hs. simpl length. lia.
Qed.

(** The [i]-th appended row comes from the [i]-th iteration, which passed the
    test of line 177. *)
Lemma loop_elapsed self args start ticks :
  forall st why st' rows i r,
    loop self args start st ticks = Ok (why, st', rows) ->
    rows !! i = Some r ->
    exists t, ticks !! i = Some t /\
      duration_reached args start t = false /\
      elapsed_seconds r = py_round (current_time t - start) 6.
Proof.
  induction ticks as [|t rest IH]; intros st why st' rows i r H Hi.
  - injection H as <- <- <-. discriminate.
  - apply loop_cons_inv in H
      as [(_ & _ & -> & ->) | (st1 & row & s & rows' & Ht & Hl & ->)];
      [discriminate|].
    destruct i as [|i]; simpl in Hi.
    + injection Hi as ->. exists t.
      apply tick_Sampled_inv in Ht as (Hd & cols & _ & -> & _).
      by repeat split.
    + eapply IH in Hl as (t' & ? & ?); eauto.
Qed.

(** Without a flush there is no status line. *)
Lemma loop_no_flush self args start ticks :
  forall st why st' rows,
    loop self args start st ticks = Ok (why, st', rows) ->
    Z.of_nat (length (buffer st) + length rows) < buffer_size args ->
    stdout st' = stdout st /\ csvfile st' = csvfile st /\
    buffer st' = buffer st ++ rows.
Proof.
  induction ticks as [|t rest IH]; intros st why st' rows H Hlen.
  - injection H as <- <- <-. by rewrite app_nil_r.
  - apply loop_cons_inv in H
      as [(_ & _ & -> & ->) | (st1 & row & s & rows' & Ht & Hl & ->)].
    + by rewrite app_nil_r.
    + simpl length in Hlen.
      apply tick_Sampled_inv in Ht as (_ & _ & _ & _ & Hf & _).
      apply flush_and_report_inv in Hf as (_ & _ & Hflush & Hstatus).
      destruct (Z.leb_spec (buffer_size args)
                  (Z.of_nat (length (buffer st)) + 1)) as [? | _]; [lia|].
      simpl in Hstatus. destruct Hflush as [Hc Hb], Hstatus as [Ho _].
      apply IH in Hl as (-> & -> & ->).
      * rewrite Ho, Hc, Hb, <- app_assoc. done.
      * rewrite Hb, length_app. simpl. lia.
Qed.

Lemma write_remaining_app st : write_remaining st = csvfile st ++ buffer st.
Proof.
  unfold write_remaining. destruct (buffer st); [by rewrite app_nil_r | done].
Qed.

Lemma main_inv args domains env o :
  main args domains env = Ok o ->
  let self := RaplReader_init domains (max_files env) in
  exists st',
    loop self args (start_time env) (initial_state self env) (ticks env)
      = Ok (ended o, st', appended o) /\
    data_rows o = csvfile st' ++ buffer st' /\
    printed o = stdout st' /\
    sample_count o = samples st'.
Proof.
  intros H self. unfold main in H. fold self in H.
  apply bind_Ok in H as ([[why st'] rows] & Hl & H).
  injection H as <-. simpl. exists st'.
  by rewrite write_remaining_app.
Qed.

Lemma main_rows args domains env o :
  main args domains env = Ok o ->
  data_rows o = appended o /\
  sample_count o = Z.of_nat (length (appended o)).
Proof.
  intros H. apply main_inv in H as (st' & Hl & -> & _ & ->).
  apply loop_rows in Hl as [-> ->]. done.
Qed.

(** C9. The rows are buffered in the order of appending; the buffer is
    written out and emptied in the iteration in which its length reaches
    [buffer_size], and only then; when the loop ends by the duration limit or
    by Ctrl+C the rest of the buffer is written: the data rows of the file are
    the appended rows, in order, each once. *)
Theorem buffered_rows_all_written args domains env o :
  main args domains env = Ok o ->
  data_rows o = appended o /\
  sample_count o = Z.of_nat (length (appended o)) /\
  forall self start st t st' row s,
    tick self args start st t = Ok (Sampled st' row s) ->
    if buffer_size args <=? Z.of_nat (length (buffer st)) + 1
    then csvfile st' = csvfile st ++ buffer st ++ [row] /\ buffer st' = []
    else csvfile st' = csvfile st /\ buffer st' = buffer st ++ [row].
Proof.
  intros H. apply main_rows in H as [Hrows Hcount].
  repeat split; [exact Hrows | exact Hcount |].
  intros self start st t st' row s Ht.
  apply tick_Sampled_inv in Ht as (_ & _ & _ & _ & Hf & _).
  by apply flush_and_report_inv in Hf as (_ & _ & Hflush & _).
Qed.

Lemma buffered_rows_all_written_witness :
  exists o,
    main sample_args sample_domains scenario_D = Ok o /\
    data_rows o = appended o /\
    sample_count o = 5 /\
    ended o = Interrupted.
Proof.
  destruct (main sample_args sample_domains scenario_D) as [o | e] eqn:H;
    [| vm_compute in H; discriminate].
  exists o. split; [reflexivity|].
  destruct (buffered_rows_all_written _ _ _ _ H) as (Hrows & Hcount & _).
  split; [exact Hrows|].
  vm_compute in H. injection H as <-. split; reflexivity.
Defined.

(** Scenario D, step by step: with [buffer_size = 3] the third append writes
    three rows and empties the buffer; two more appends leave two rows in the
    buffer, which the final write adds to the file. *)
Example scenario_D_steps :
  let self := RaplReader_init sample_domains (max_files scenario_D) in
  let st0 := initial_state self scenario_D in
  (exists st3 rows,
     loop self sample_args 0 st0 (take 3 (ticks scenario_D))
       = Ok (Interrupted, st3, rows) /\
     length (csvfile st3) = 3%nat /\ length (buffer st3) = 0%nat) /\
  (exists st5 rows,
     loop self sample_args 0 st0 (ticks scenario_D)
       = Ok (Interrupted, st5, rows) /\
     length (csvfile st5) = 3%nat /\ length (buffer st5) = 2%nat /\
     write_remaining st5 = csvfile st5 ++ buffer st5 /\
     length (write_remaining st5) = 5%nat).
Proof.
  split; eexists _, _; (split; [vm_compute; reflexivity|]);
    repeat split; vm_compute; reflexivity.
Qed.

(** The same when the loop ends at line 179: the sixth iteration breaks and
    the two buffered rows are written. *)
Example scenario_D_duration_reached :
  exists o,
    main sample_args sample_domains scenario_D_to_the_end = Ok o /\
    ended o = DurationReached /\
    data_rows o = appended o /\
    length (data_rows o) = 5%nat.
Proof.
  eexists. split; [vm_compute; reflexivity|].
  repeat split; vm_compute; reflexivity.
Qed.

Lemma truediv_Ok x y q :
  truediv x y = Ok q -> q = (x / y)%Q /\ ~ (y == 0)%Q.
Proof.
  unfold truediv. destruct (Qeq_bool y 0) eqn:E; [discriminate|].
  intros [= <-]. split; [reflexivity | by apply Qeq_bool_neq].
Qed.

(** Where the code prints the status line: inside the flush.  An iteration
    prints it exactly when it flushes the buffer and at least 5 s passed
    since the last status line (or the start); it reports the sample count
    and the rate [samples / (current - start_time)].  A run that appends
    fewer rows than [buffer_size] prints no status line. *)
Theorem status_line_only_after_flush args domains env o :
  main args domains env = Ok o ->
  (Z.of_nat (length (appended o)) < buffer_size args -> printed o = []) /\
  forall self start st t st' row s,
    tick self args start st t = Ok (Sampled st' row s) ->
    if (buffer_size args <=? Z.of_nat (length (buffer st)) + 1) &&
       Qle_bool 5 (current t - last_status_time st)
    then exists status,
           stdout st' = stdout st ++ [status] /\
           status_samples status = samples st + 1 /\
           status_rate status
             = (inject_Z (samples st + 1) / (current t - start))%Q /\
           last_status_time st' = current t
    else stdout st' = stdout st /\
         last_status_time st' = last_status_time st.
Proof.
  intros H. split.
  - intros Hlen. apply main_inv in H as (st' & Hl & _ & -> & _).
    by apply loop_no_flush in Hl as (-> & _).
  - intros self start st t st' row s Ht.
    apply tick_Sampled_inv in Ht as (_ & _ & _ & _ & Hf & _).
    apply flush_and_report_inv in Hf as (_ & _ & _ & Hstatus).
    destruct (_ && _); [|exact Hstatus].
    destruct Hstatus as (status & Ho & Hs & Hr & Hl).
    apply truediv_Ok in Hr as [Hr _]. eauto 10.
Qed.

Lemma status_line_only_after_flush_witness :
  exists o,
    main slow_args sample_domains slow_run = Ok o /\
    sample_count o = 3 /\
    printed o = [].
Proof.
  destruct (main slow_args sample_domains slow_run) as [o | e] eqn:H;
    [| vm_compute in H; discriminate].
  exists o. split; [reflexivity|].
  destruct (status_line_only_after_flush _ _ _ _ H) as [Hnone _].
  split; [| apply Hnone];
    vm_compute in H; injection H as <-; reflexivity.
Defined.

(** C8. A status line is due whenever 5 s have passed since the last one,
    whatever the buffer holds, as the comment of line 221 (Status update
    every 5 seconds) says too.  The code misses it: in [slow_run], with [-i 6]
    and the default buffer of 1000 rows, the iterations are 6 s apart, 12 s
    pass before Ctrl+C, the buffer is never full, and no status line is
    printed. *)
Lemma no_status_line_without_flush :
  exists o t,
    main slow_args sample_domains slow_run = Ok o /\
    last (ticks slow_run) = Some t /\
    (5 <= current t - start_time slow_run)%Q /\
    Z.of_nat (length (data_rows o)) < buffer_size slow_args /\
    printed o = [].
Proof.
  eexists _, _. split; [vm_compute; reflexivity|].
  split; [reflexivity|]. repeat split; vm_compute; congruence.
Qed.

(** With [-b 1] the same run flushes in every iteration and prints a status
    line in the second and in the third. *)
Example status_line_after_flush :
  exists o s2 s3,
    main unbuffered_args sample_domains slow_run = Ok o /\
    printed o = [s2; s3] /\
    status_samples s2 = 2 /\ status_samples s3 = 3.
Proof.
  eexists _, _, _. split; [vm_compute; reflexivity|].
  repeat split; vm_compute; reflexivity.
Qed.

Lemma duration_reached_true args start t :
  0 < duration args ->
  (inject_Z (duration args) <= current_time t - start)%Q ->
  duration_reached args start t = true.
Proof.
  intros Hd Hle. unfold duration_reached.
  apply andb_true_intro. split.
  - by apply Z.ltb_lt.
  - by apply Qle_bool_iff.
Qed.

Lemma duration_reached_false args start t :
  0 < duration args ->
  duration_reached args start t = false ->
  (current_time t - start < inject_Z (duration args))%Q.
Proof.
  intros Hd H. unfold duration_reached in H.
  apply Z.ltb_lt in Hd. rewrite Hd in H. simpl in H.
  apply Qnot_le_lt. intros Hle. apply Qle_bool_iff in Hle. congruence.
Qed.

(** C7 (as amended). With a duration limit, the test of line 177 comes first
    in every iteration: once the limit is reached the iteration breaks,
    whatever the files hold, and every row of the file has an
    [elapsed_seconds] of at most the limit.  The [elapsed_seconds] of
    consecutive rows do not decrease provided the successive readings of the
    clock do not. *)
Theorem elapsed_seconds_bounded_and_ordered args domains env o :
  0 < duration args ->
  main args domains env = Ok o ->
  (forall self st t,
     (inject_Z (duration args) <= current_time t - start_time env)%Q ->
     tick self args (start_time env) st t = Ok Break) /\
  (forall r, r ∈ data_rows o ->
     (elapsed_seconds r <= inject_Z (duration args))%Q) /\
  (clock_non_decreasing (ticks env) ->
   forall i r1 r2,
     data_rows o !! i = Some r1 -> data_rows o !! S i = Some r2 ->
     (elapsed_seconds r1 <= elapsed_seconds r2)%Q).
Proof.
  intros Hd H.
  destruct (main_rows _ _ _ _ H) as [Hrows _].
  apply main_inv in H as (st' & Hl & _). rewrite Hrows.
  split; [|split].
  - intros self st t Hle. unfold tick.
    by rewrite duration_reached_true.
  - intros r Hr. apply list_elem_of_lookup in Hr as [i Hi].
    destruct (loop_elapsed _ _ _ _ _ _ _ _ _ _ Hl Hi) as (t & _ & Hnot & ->).
    apply py_round_le_Z, Qlt_le_weak. by apply duration_reached_false.
  - intros Hclock i r1 r2 H1 H2.
    destruct (loop_elapsed _ _ _ _ _ _ _ _ _ _ Hl H1) as (t1 & Ht1 & _ & ->).
    destruct (loop_elapsed _ _ _ _ _ _ _ _ _ _ Hl H2) as (t2 & Ht2 & _ & ->).
    apply py_round_mono.
    pose proof (Hclock i t1 t2 Ht1 Ht2). lra.
Qed.

Lemma scenario_D_clock : clock_non_decreasing (ticks scenario_D).
Proof.
  intros i t1 t2 H1 H2. unfold scenario_D in H1, H2. simpl ticks in H1, H2.
  do 4 (destruct i as [|i];
        [injection H1 as <-; injection H2 as <-; vm_compute; discriminate|]).
  destruct i; discriminate.
Defined.

Lemma elapsed_seconds_bounded_and_ordered_witness :
  exists o,
    main sample_args sample_domains scenario_D = Ok o /\
    (forall r, r ∈ data_rows o ->
       (elapsed_seconds r <= inject_Z (duration sample_args))%Q) /\
    (forall i r1 r2,
       data_rows o !! i = Some r1 -> data_rows o !! S i = Some r2 ->
       (elapsed_seconds r1 <= elapsed_seconds r2)%Q).
Proof.
  destruct (main sample_args sample_domains scenario_D) as [o | e] eqn:H;
    [| vm_compute in H; discriminate].
  exists o. split; [reflexivity|].
  destruct (elapsed_seconds_bounded_and_ordered
              sample_args sample_domains scenario_D o)
    as (_ & Hbound & Hordered); [reflexivity | exact H |].
  split; [exact Hbound | exact (Hordered scenario_D_clock)].
Defined.

(** C7 as the specification words it: when the system clock is set back
    during the run, the [elapsed_seconds] of the next row is smaller than
    that of the row before it. *)
Lemma elapsed_seconds_decrease_when_clock_set_back :
  exists o r1 r2,
    0 < duration sample_args /\
    main sample_args sample_domains clock_set_back = Ok o /\
    data_rows o = [r1; r2] /\
    (elapsed_seconds r2 < elapsed_seconds r1)%Q.
Proof.
  eexists _, _, _. split; [reflexivity|].
  split; [vm_compute; reflexivity|].
  split; vm_compute; reflexivity.
Qed.

(** ** Runs that do not abort *)

Lemma domain_power_Ok domains mf args prev current_energy t d :
  d ∈ domains ->
  is_Some (prev !! d) ->
  is_Some (current_energy !! d) ->
  ~ (actual_interval args t == 0)%Q ->
  exists v,
    domain_power (RaplReader_init domains mf) args prev current_energy t d
    = Ok v.
Proof.
  intros Hd [p Hp] [c Hc] Hnz. unfold domain_power, subscript.
  rewrite Hp, Hc. simpl.
  destruct p as [p|]; [|eauto]. simpl.
  destruct c as [c|]; [|eauto].
  destruct (RaplReader_init_max domains mf d Hd) as [m Hm].
  unfold energy_diff, truediv. rewrite Hm.
  destruct (Qeq_bool (actual_interval args t) 0) eqn:E;
    [by apply Qeq_bool_eq in E|].
  destruct (c - p <? 0); simpl; rewrite ?E; simpl; eauto.
Qed.

Lemma tick_Ok domains mf args start st t :
  let self := RaplReader_init domains mf in
  loop_invariant self start st ->
  ~ (actual_interval args t == 0)%Q ->
  exists o, tick self args start st t = Ok o.
Proof.
  intros self [Hkeys Hlast] Hnz. unfold tick.
  destruct (duration_reached args start t); [eauto|].
  destruct (power_columns_Ok self args (prev_energy st)
              (read_energy_values self (energy_files t)) t
              (domain_paths self) ∅) as [cols ->].
  { intros d Hd. apply domain_power_Ok; auto.
    rewrite read_energy_values_lookup by done. eauto. }
  simpl.
  destruct (flush_and_report_Ok self args start st
              (read_energy_values self (energy_files t)) t
              {| timestamp := now_iso t;
                 elapsed_seconds := py_round (current_time t - start) 6;
                 power_watts := cols |} Hlast) as [st' ->].
  simpl. eauto.
Qed.

Lemma loop_Ok domains mf args start ts :
  let self := RaplReader_init domains mf in
  (0 < interval args)%Q ->
  (forall t, t ∈ ts -> (sample_start t <= current_time t)%Q) ->
  forall st, loop_invariant self start st ->
  exists r, loop self args start st ts = Ok r.
Proof.
  intros self Hi. induction ts as [|t rest IH]; intros Hclock st Hinv.
  - simpl. eauto.
  - destruct (tick_Ok domains mf args start st t Hinv) as [o Ho].
    { assert (sample_start t <= current_time t)%Q by (apply Hclock; by left).
      unfold actual_interval. lra. }
    simpl. fold self in Ho |- *. rewrite Ho. simpl.
    destruct o as [|st1 row s]; [eauto|].
    destruct (IH (fun t' Ht' => Hclock t' (list_elem_of_further _ _ _ Ht')) st1)
      as [r ->]; [by eapply tick_invariant | simpl; eauto].
Qed.

(** With a positive interval and a clock that does not go back between the
    two readings of an iteration, the run of [main] modelled by [loop] ends
    normally, by the duration limit or by Ctrl+C, whichever reads fail. *)
Lemma main_Ok args domains env :
  (0 < interval args)%Q ->
  (forall t, t ∈ ticks env -> (sample_start t <= current_time t)%Q) ->
  exists o, main args domains env = Ok o.
Proof.
  intros Hi Hclock. unfold main.
  destruct (loop_Ok domains (max_files env) args (start_time env) (ticks env)
              Hi Hclock _ (initial_state_invariant _ env)) as [r ->].
  simpl. eauto.
Qed.

(** * Further properties of [idle_cpu.py] *)

(** ** The dictionaries of [RaplReader] *)

Lemma foldl_insert_lookup {V : Type} (g : string -> V) (l : list string) :
  forall (acc : gmap string V) (d : string),
    foldl (fun acc x => <[x := g x]> acc) acc l !! d
    = if decide (d ∈ l) then Some (g d) else acc !! d.
Proof.
  induction l as [|x l IH]; intros acc d; simpl.
  - destruct (decide (d ∈ [])) as [Hin | _]; [|done].
    by apply elem_of_nil in Hin.
  - rewrite IH.
    destruct (decide (d ∈ l)) as [Hl | Hl].
    + rewrite decide_True; [done | by right].
    + destruct (decide (d = x)) as [-> | Hne].
      * rewrite lookup_insert_eq, decide_True; [done | by left].
      * rewrite lookup_insert_ne by done.
        rewrite decide_False; [done|].
        intros [? | ?]%elem_of_cons; contradiction.
Qed.

(** X1. [__init__] caches a wrap bound for every monitored domain and for no
    other: the content of [max_energy_range_uj], or [2^32] when the file
    cannot be read.  [get_max_energy] is [None] for any other name. *)
Theorem get_max_energy_init domains max_files d :
  get_max_energy (RaplReader_init domains max_files) d
  = if decide (d ∈ domains)
    then Some (default (2 ^ 32) (max_files d))
    else None.
Proof.
  unfold get_max_energy, RaplReader_init. simpl.
  transitivity
    (foldl (fun (acc : gmap string Z) x =>
              <[x := default (2 ^ 32) (max_files x)]> acc)
           ∅ domains !! d).
  - f_equal. generalize (∅ : gmap string Z).
    induction domains as [|x l IH]; intros acc; simpl; [done|].
    rewrite <- IH. by destruct (max_files x).
  - rewrite foldl_insert_lookup. by rewrite lookup_empty.
Qed.

(** X2. [read_energy_values] returns a dictionary with a key for every
    monitored domain and no other key: a failed read is the value [None], not
    a missing key. *)
Theorem read_energy_values_keys self files d :
  read_energy_values self files !! d
  = if decide (d ∈ domain_paths self) then Some (files d) else None.
Proof.
  unfold read_energy_values. rewrite foldl_insert_lookup.
  by rewrite lookup_empty.
Qed.

(** ** The energy between two readings *)

(** X3. The delta undoes the wrap of the counter: when the counter stood at
    [prev] and the domain then used [e] microjoules, less than the range, the
    counter reads [(prev + e) mod max_range] and lines 193-196 give back
    [e]. *)
Theorem energy_diff_recovers_energy (prev e max_range : Z) :
  0 <= prev < max_range ->
  0 <= e < max_range ->
  energy_diff prev ((prev + e) mod max_range) (Some max_range) = Ok e.
Proof.
  intros Hp He. unfold energy_diff.
  destruct (Z_lt_dec (prev + e) max_range) as [Hlt | Hge].
  - rewrite Z.mod_small by lia.
    destruct (Z.ltb_spec (prev + e - prev) 0); [lia|]. f_equal. lia.
  - replace ((prev + e) mod max_range) with (prev + e - max_range).
    + destruct (Z.ltb_spec (prev + e - max_range - prev) 0); [|lia].
      f_equal. lia.
    + apply Z.mod_unique with (q := 1); lia.
Qed.

Lemma energy_diff_recovers_energy_witness :
  energy_diff 4294967000 ((4294967000 + 500) mod 4294967296)
              (Some 4294967296) = Ok 500.
Proof. apply energy_diff_recovers_energy; lia. Defined.

Lemma energy_diff_mod (prev curr max_range : Z) :
  0 <= prev < max_range ->
  0 <= curr < max_range ->
  energy_diff prev curr (Some max_range) = Ok ((curr - prev) mod max_range).
Proof.
  intros Hp Hc. unfold energy_diff.
  destruct (Z.ltb_spec (curr - prev) 0).
  - f_equal. apply Z.mod_unique with (q := -1); lia.
  - f_equal. symmetry. apply Z.mod_small. lia.
Qed.

Lemma py_round_nonneg x n : (0 <= x)%Q -> (0 <= py_round x n)%Q.
Proof.
  intros Hx. pose proof (py_round_mono 0 x n Hx) as H.
  pose proof (py_round_inject_Z 0 n) as H0.
  change (inject_Z 0) with 0%Q in H0. lra.
Qed.

(** X4. For a domain whose two readings are integers inside the range of its
    counter, and a positive divisor, the cell of the row holds a power that
    is not negative: the energy [(curr - prev) mod max_range], in joules,
    over the divisor of line 200, rounded to 3 places. *)
Theorem power_of_in_range_readings self args prev current_energy t d p c m :
  prev !! d = Some (Some p) ->
  current_energy !! d = Some (Some c) ->
  get_max_energy self d = Some m ->
  0 <= p < m ->
  0 <= c < m ->
  (0 < actual_interval args t)%Q ->
  exists v,
    domain_power self args prev current_energy t d = Ok (Some v) /\
    v = py_round ((inject_Z ((c - p) mod m) / 1000000)
                  / actual_interval args t)%Q 3 /\
    (0 <= v)%Q.
Proof.
  intros Hp Hc Hm Hpr Hcr Hpos. unfold domain_power, subscript.
  rewrite Hp, Hc, Hm. simpl. rewrite energy_diff_mod by done. simpl.
  unfold truediv.
  destruct (Qeq_bool (actual_interval args t) 0) eqn:E.
  { apply Qeq_bool_eq in E. exfalso. lra. }
  simpl. eexists. split; [reflexivity|]. split; [reflexivity|].
  apply py_round_nonneg.
  assert (0 <= (c - p) mod m) by (apply Z.mod_pos_bound; lia).
  assert (Hn : (0 <= inject_Z ((c - p) mod m))%Q).
  { change 0%Q with (inject_Z 0). by rewrite <- Zle_Qle. }
  apply Qle_shift_div_l; [exact Hpos|].
  apply Qle_shift_div_l; [reflexivity|]. lra.
Qed.

Lemma power_of_in_range_readings_witness :
  exists v,
    domain_power sample_reader sample_args
      (prev_energy (initial_state sample_reader overrun))
      (read_energy_values sample_reader (energy_files overrun_first))
      overrun_first "package-0" = Ok (Some v) /\
    (0 <= v)%Q.
Proof.
  destruct (power_of_in_range_readings sample_reader sample_args
              (prev_energy (initial_state sample_reader overrun))
              (read_energy_values sample_reader (energy_files overrun_first))
              overrun_first "package-0" 0 1000000 262143328850)
    as (v & Hv & _ & Hpos);
    try (vm_compute; reflexivity); try lia.
  exists v. split; [exact Hv | exact Hpos].
Defined.

(** ** The exceptions that can leave the loop *)

Lemma domain_power_Raise domains mf args prev current_energy t d e :
  d ∈ domains ->
  is_Some (prev !! d) ->
  is_Some (current_energy !! d) ->
  domain_power (RaplReader_init domains mf) args prev current_energy t d
    = Raise e ->
  e = ZeroDivisionError /\ (actual_interval args t == 0)%Q.
Proof.
  intros Hd Hp Hc H.
  destruct (Qeq_dec (actual_interval args t) 0) as [Hz | Hnz].
  - split; [|exact Hz]. revert H.
    destruct Hp as [p Hp], Hc as [c Hc].
    destruct (RaplReader_init_max domains mf d Hd) as [m Hm].
    unfold domain_power, subscript, energy_diff, truediv.
    rewrite Hp, Hc, Hm. simpl.
    destruct p as [p|]; [|discriminate]. simpl.
    destruct c as [c|]; [|discriminate].
    destruct (c - p <? 0); simpl;
      destruct (Qeq_bool (actual_interval args t) 0); simpl;
      congruence.
  - destruct (domain_power_Ok domains mf args prev current_energy t d
                Hd Hp Hc Hnz) as [v Hv].
    congruence.
Qed.

Lemma power_columns_Raise self args prev current_energy t domains row e :
  power_columns self args prev current_energy t domains row = Raise e ->
  exists d, d ∈ domains /\
    domain_power self args prev current_energy t d = Raise e.
Proof.
  revert row. induction domains as [|x l IH]; intros row H; simpl in H.
  - discriminate.
  - destruct (domain_power self args prev current_energy t x) as [v | e']
      eqn:Hx; simpl in H.
    + apply IH in H as (d & Hd & H). exists d. split; [by right | exact H].
    + injection H as ->. exists x. split; [by left | exact Hx].
Qed.

(** X5. In a state that the loop reaches, the dictionary subscripts of lines
    191-193, the addition of the wrap bound at line 196 and the divisions of
    lines 201 and 222 raise nothing but the [ZeroDivisionError] of line 201,
    and that only when the divisor [current_time - sample_start + interval]
    is 0: no [KeyError] on the dictionaries of readings, no [TypeError] on
    the wrap bound, no division by zero in the status line.  (The file,
    [print] and [time.sleep] are not the subject: [tick] takes them to
    return.) *)
Theorem tick_raises_only_ZeroDivisionError domains mf args start st t e :
  let self := RaplReader_init domains mf in
  loop_invariant self start st ->
  tick self args start st t = Raise e ->
  e = ZeroDivisionError /\ (actual_interval args t == 0)%Q.
Proof.
  intros self [Hkeys Hlast] H. unfold tick in H.
  destruct (duration_reached args start t); [discriminate|].
  destruct (power_columns self args (prev_energy st)
              (read_energy_values self (energy_files t)) t
              (domain_paths self) ∅) as [cols | e'] eqn:Hcols; simpl in H.
  - destruct (flush_and_report_Ok self args start st
                (read_energy_values self (energy_files t)) t
                {| timestamp := now_iso t;
                   elapsed_seconds := py_round (current_time t - start) 6;
                   power_watts := cols |} Hlast) as [st' Hst'].
    rewrite Hst' in H. discriminate.
  - injection H as ->.
    apply power_columns_Raise in Hcols as (d & Hd & Hraise).
    apply domain_power_Raise in Hraise; auto.
    rewrite read_energy_values_lookup by done. eauto.
Qed.

Lemma tick_raises_only_ZeroDivisionError_witness :
  tick sample_reader zero_interval_args 0
    (initial_state sample_reader scenario_B) scenario_B_failed
    = Raise ZeroDivisionError /\
  (actual_interval zero_interval_args scenario_B_failed == 0)%Q.
Proof.
  assert (H : tick sample_reader zero_interval_args 0
                (initial_state sample_reader scenario_B) scenario_B_failed
              = Raise ZeroDivisionError) by (vm_compute; reflexivity).
  split; [exact H|].
  apply (tick_raises_only_ZeroDivisionError sample_domains
           (fun _ => Some 262143328850) zero_interval_args 0
           (initial_state sample_reader scenario_B) scenario_B_failed
           ZeroDivisionError);
    [apply (initial_state_invariant sample_reader scenario_B) | exact H].
Defined.

(** ** Batches *)

Lemma initial_state_batched self env b :
  (1 <= b)%nat -> batched b (initial_state self env).
Proof.
  intros Hb. unfold batched. simpl.
  repeat split; [lia | apply Nat.divide_0_r | constructor].
Qed.

Lemma tick_batched self args start st t st' row s b :
  buffer_size args = Z.of_nat b ->
  (start <= last_status_time st)%Q ->
  batched b st ->
  tick self args start st t = Ok (Sampled st' row s) ->
  batched b st'.
Proof.
  intros Hb Hlast (Hlen & Hdiv & Hcount & Hstatus) H.
  apply tick_Sampled_inv in H as (_ & _ & _ & _ & H & _).
  apply flush_and_report_inv in H as (_ & Hs & Hflush & Hprint).
  rewrite Hb in Hflush, Hprint.
  destruct (Z.leb_spec (Z.of_nat b) (Z.of_nat (length (buffer st)) + 1))
    as [Hfull | Hroom].
  - destruct Hflush as [Hc Hbuf].
    assert (Hb1 : (length (buffer st) + 1 = b)%nat) by lia.
    assert (Hnew : (length (csvfile st') = length (csvfile st) + b)%nat).
    { rewrite Hc, !length_app. simpl. lia. }
    assert (Hdiv' : (b | length (csvfile st'))%nat).
    { rewrite Hnew. apply Nat.divide_add_r; [exact Hdiv | reflexivity]. }
    assert (Hcount' : samples st'
              = Z.of_nat (length (csvfile st') + length (buffer st'))).
    { rewrite Hs, Hcount, Hnew, Hbuf. simpl. lia. }
    repeat split; [rewrite Hbuf; simpl; lia | exact Hdiv' | exact Hcount' |].
    simpl in Hprint. destruct (Qle_bool 5 _) eqn:E.
    + destruct Hprint as (status & -> & Hn & Hrate & _).
      apply Forall_app. split; [exact Hstatus|].
      apply Forall_singleton. rewrite Hn.
      replace (samples st + 1) with (Z.of_nat (length (csvfile st')))
        in * by lia.
      split; [lia|]. split.
      * destruct Hdiv' as [k ->]. exists (Z.of_nat k). lia.
      * apply truediv_Ok in Hrate as [-> _].
        apply Qle_bool_iff in E.
        apply Qlt_shift_div_l; [lra|].
        rewrite Qmult_0_l. change 0%Q with (inject_Z 0).
        rewrite <- Zlt_Qlt. lia.
    + destruct Hprint as [-> _]. exact Hstatus.
  - destruct Hflush as [Hc Hbuf]. simpl in Hprint. unfold batched.
    destruct Hprint as [-> _].
    rewrite Hc, Hbuf, length_app. simpl.
    repeat split; [lia | exact Hdiv | lia | exact Hstatus].
Qed.

Lemma loop_batched self args start ts b :
  buffer_size args = Z.of_nat b ->
  forall st why st' rows,
    loop_invariant self start st ->
    batched b st ->
    loop self args start st ts = Ok (why, st', rows) ->
    batched b st'.
Proof.
  intros Hb. induction ts as [|t rest IH]; intros st why st' rows Hinv Hst H.
  - by injection H as <- <- <-.
  - apply loop_cons_inv in H
      as [(_ & _ & -> & _) | (st1 & row & s & rows' & Ht & Hl & _)];
      [exact Hst|].
    eapply IH; [| | exact Hl].
    + by eapply tick_invariant.
    + eapply tick_batched; eauto. apply Hinv.
Qed.

(** X6. With a buffer of [b >= 1] rows, whenever the loop stops the file
    holds whole batches only, the longest prefix of the appended rows made of
    batches of [b], and the buffer holds the rest, fewer than [b] rows. *)
Theorem flushed_rows_are_whole_batches self args env why st' rows b :
  buffer_size args = Z.of_nat b ->
  (1 <= b)%nat ->
  loop self args (start_time env) (initial_state self env) (ticks env)
    = Ok (why, st', rows) ->
  csvfile st' = take (b * (length rows / b)) rows /\
  buffer st' = drop (b * (length rows / b)) rows /\
  (length (buffer st') < b)%nat.
Proof.
  intros Hb Hb1 H.
  pose proof (loop_batched self args (start_time env) (ticks env) b Hb
                _ _ _ _ (initial_state_invariant self env)
                (initial_state_batched self env b Hb1) H)
    as (Hlen & [k Hk] & _).
  apply loop_rows in H as [Hrows _]. simpl in Hrows.
  assert (Hn : (b * (length rows / b) = length (csvfile st'))%nat).
  { rewrite <- Hrows, length_app, Hk.
    rewrite (Nat.add_comm (k * b)), Nat.div_add by lia.
    rewrite Nat.div_small by lia. lia. }
  rewrite Hn, <- Hrows.
  rewrite take_app_length, drop_app_length. done.
Qed.

Lemma flushed_rows_are_whole_batches_witness :
  exists st' rows,
    loop sample_reader sample_args 0
      (initial_state sample_reader scenario_D) (ticks scenario_D)
      = Ok (Interrupted, st', rows) /\
    csvfile st' = take 3 rows /\
    buffer st' = drop 3 rows.
Proof.
  destruct (loop sample_reader sample_args 0
              (initial_state sample_reader scenario_D) (ticks scenario_D))
    as [[[why st'] rows] | e] eqn:H; [| vm_compute in H; discriminate].
  assert (Hwhy : why = Interrupted)
    by (vm_compute in H; by injection H as <- _ _).
  assert (Hlen : length rows = 5%nat)
    by (vm_compute in H; by injection H as _ _ <-).
  subst why. exists st', rows. split; [reflexivity|].
  destruct (flushed_rows_are_whole_batches sample_reader sample_args
              scenario_D Interrupted st' rows 3) as (Hc & Hb & _);
    [reflexivity | lia | exact H |].
  rewrite Hlen in Hc, Hb. split; [exact Hc | exact Hb].
Defined.

(** X7. With a buffer of [b >= 1] rows, every status line of a run reports a
    number of samples that is a positive multiple of [b], and a positive
    sampling rate. *)
Theorem status_lines_report_whole_batches args domains env o b :
  buffer_size args = Z.of_nat b ->
  (1 <= b)%nat ->
  main args domains env = Ok o ->
  forall status, status ∈ printed o ->
    0 < status_samples status /\
    (Z.of_nat b | status_samples status) /\
    (0 < status_rate status)%Q.
Proof.
  intros Hb Hb1 H status Hin.
  apply main_inv in H as (st' & Hl & _ & Hp & _).
  pose proof (loop_batched _ args (start_time env) (ticks env) b Hb
                _ _ _ _ (initial_state_invariant _ env)
                (initial_state_batched _ env b Hb1) Hl)
    as (_ & _ & _ & Hall).
  rewrite Hp in Hin.
  by apply (proj1 (Forall_forall _ _) Hall).
Qed.

Lemma status_lines_report_whole_batches_witness :
  exists o status,
    main unbuffered_args sample_domains slow_run = Ok o /\
    status ∈ printed o /\
    0 < status_samples status /\
    (0 < status_rate status)%Q.
Proof.
  destruct (main unbuffered_args sample_domains slow_run) as [o | e] eqn:H;
    [| vm_compute in H; discriminate].
  destruct (printed o) as [|status rest] eqn:Hp.
  { exfalso. vm_compute in H. injection H as <-. discriminate. }
  exists o, status. split; [reflexivity|].
  assert (Hin : status ∈ printed o) by (rewrite Hp; by left).
  split; [exact Hin|].
  destruct (status_lines_report_whole_batches unbuffered_args sample_domains
              slow_run o 1 eq_refl (le_n 1) H status Hin) as (Hs & _ & Hr).
  split; [exact Hs | exact Hr].
Defined.

(** ** The columns of a row and the header *)

Lemma power_columns_dom self args prev current_energy t domains row cols :
  power_columns self args prev current_energy t domains row = Ok cols ->
  dom cols = dom row ∪ list_to_set (column <$> domains).
Proof.
  revert row. induction domains as [|x l IH]; intros row H; simpl in H.
  - injection H as <-. simpl. by rewrite union_empty_r_L.
  - apply bind_Ok in H as (v & _ & H). apply IH in H. rewrite H.
    rewrite dom_insert_L. simpl.
    by rewrite (union_comm_L {[column x]}), <- union_assoc_L.
Qed.

(** X8. The keys of every row are the names of the header: ['timestamp'],
    ['elapsed_seconds'] and one power column per monitored domain, no more
    and no less. *)
Theorem row_keys_are_the_fieldnames self args start st t st' row s :
  tick self args start st t = Ok (Sampled st' row s) ->
  forall k,
    k ∈ fieldnames (domain_paths self) <->
    k = "timestamp" \/ k = "elapsed_seconds" \/
    is_Some (power_watts row !! k).
Proof.
  intros H k.
  apply tick_Sampled_inv in H as (_ & cols & Hcols & -> & _).
  apply power_columns_dom in Hcols. simpl.
  rewrite <- elem_of_dom, Hcols. unfold fieldnames.
  rewrite elem_of_app, !elem_of_cons, elem_of_nil.
  rewrite elem_of_union, elem_of_list_to_set, dom_empty_L, elem_of_empty.
  tauto.
Qed.

Lemma row_keys_are_the_fieldnames_witness :
  exists st' row s,
    tick sample_reader sample_args 0
      (initial_state sample_reader scenario_B) scenario_B_failed
      = Ok (Sampled st' row s) /\
    is_Some (power_watts row !! "dram_power_watts") /\
    ~ is_Some (power_watts row !! "uncore_power_watts").
Proof.
  destruct (tick sample_reader sample_args 0
              (initial_state sample_reader scenario_B) scenario_B_failed)
    as [[|st' row s] | e] eqn:H;
    [vm_compute in H; discriminate | | vm_compute in H; discriminate].
  exists st', row, s. split; [reflexivity|].
  pose proof (row_keys_are_the_fieldnames _ _ _ _ _ _ _ _ H) as Hkeys.
  split.
  - destruct (proj1 (Hkeys "dram_power_watts")) as [? | [? | Hs]];
      [| discriminate | discriminate | exact Hs].
    apply (bool_decide_unpack _). vm_compute. exact I.
  - intros Hs.
    assert (Hin : "uncore_power_watts" ∈ fieldnames (domain_paths sample_reader))
      by (apply Hkeys; auto).
    revert Hin. apply (bool_decide_unpack _). vm_compute. exact I.
Defined.

Lemma column_Inj : Inj eq eq column.
Proof. intros d1 d2. apply column_inj. Qed.

Lemma column_not_fixed_name d :
  column d <> "timestamp" /\ column d <> "elapsed_seconds".
Proof.
  split; intros H.
  - apply (f_equal String.length) in H. unfold column in H.
    rewrite length_append_suffix in H. simpl in H. lia.
  - pose proof (f_equal String.length H) as Hlen. unfold column in Hlen.
    rewrite length_append_suffix in Hlen. simpl in Hlen.
    destruct d as [|a [|b [|c [|? ?]]]]; simpl in Hlen; try lia.
    vm_compute in H. discriminate.
Qed.

(** X9. The header has a column for each monitored domain after the two
    fixed ones, and no name twice (the domains are the keys of a
    dictionary). *)
Theorem fieldnames_NoDup domains :
  NoDup domains ->
  NoDup (fieldnames domains) /\
  length (fieldnames domains) = (2 + length domains)%nat.
Proof.
  intros Hnd. split.
  - unfold fieldnames. simpl.
    pose proof column_Inj as Hinj.
    assert (Hcols : NoDup (column <$> domains))
      by (apply (NoDup_fmap_2 _); exact Hnd).
    assert (Hfixed : forall name,
              name = "timestamp" \/ name = "elapsed_seconds" ->
              name ∉ column <$> domains).
    { intros name Hname [d [-> _]]%list_elem_of_fmap.
      destruct (column_not_fixed_name d). destruct Hname; contradiction. }
    apply NoDup_cons. split.
    + intros [Heq | Hin]%elem_of_cons; [discriminate|].
      revert Hin. apply Hfixed. by left.
    + apply NoDup_cons. split; [apply Hfixed; by right | exact Hcols].
  - unfold fieldnames. simpl. by rewrite length_fmap.
Qed.

Lemma fieldnames_NoDup_witness :
  NoDup (fieldnames sample_domains) /\
  length (fieldnames sample_domains) = 4%nat.
Proof.
  apply (fieldnames_NoDup sample_domains).
  apply (bool_decide_unpack _). vm_compute. exact I.
Defined.

(** ** Discovery of the domains *)

Lemma append_assoc (a b c : string) : (a +:+ b) +:+ c = a +:+ (b +:+ c).
Proof.
  induction a as [|x a IH]; [reflexivity|].
  change (String x ((a +:+ b) +:+ c) = String x (a +:+ (b +:+ c))).
  by rewrite IH.
Qed.

Lemma startswith_append s prefix :
  startswith s prefix = true -> exists rest, s = prefix +:+ rest.
Proof.
  unfold startswith. revert s.
  induction prefix as [|a p IH]; intros s H.
  - exists s. reflexivity.
  - destruct s as [|b s]; simpl in H; [discriminate|].
    destruct (Ascii.ascii_dec a b) as [<- | _]; [|discriminate].
    apply IH in H as [rest ->]. exists rest. reflexivity.
Qed.

Lemma dict_set_keys {V : Type} (d : list (string * V)) k v :
  NoDup d.*1 -> NoDup (dict_set d k v).*1.
Proof.
  induction d as [|[k' v'] d IH]; simpl; intros Hnd.
  - apply NoDup_singleton.
  - apply NoDup_cons in Hnd as [Hk' Hnd].
    destruct (decide (k' = k)) as [-> | Hne]; simpl.
    + apply NoDup_cons. done.
    + apply NoDup_cons. split; [|by apply IH].
      intros Hin. apply Hk'. clear IH Hnd Hk'.
      induction d as [|[k2 v2] d IH]; simpl in Hin.
      * apply list_elem_of_singleton in Hin. congruence.
      * destruct (decide (k2 = k)); simpl in Hin |- *.
        -- exact Hin.
        -- apply elem_of_cons in Hin as [-> | Hin]; [by left | right; auto].
Qed.

Lemma dict_set_elem {V : Type} (d : list (string * V)) k v kv :
  kv ∈ dict_set d k v -> kv ∈ d \/ kv = (k, v).
Proof.
  induction d as [|[k' v'] d IH]; simpl; intros Hin.
  - apply list_elem_of_singleton in Hin. by right.
  - destruct (decide (k' = k)) as [-> | Hne].
    + apply elem_of_cons in Hin as [-> | Hin]; [by right | left; by right].
    + apply elem_of_cons in Hin as [-> | Hin]; [left; by left|].
      destruct (IH Hin) as [? | ?]; [left; by right | by right].
Qed.

Lemma dict_set_not_nil {V : Type} (d : list (string * V)) k v :
  dict_set d k v <> [].
Proof.
  destruct d as [|[k' v'] d]; simpl; [discriminate|].
  destruct (decide (k' = k)); discriminate.
Qed.

Lemma path_join_under path name :
  under_RAPL_PATH path -> under_RAPL_PATH (path_join path name).
Proof.
  intros [rest ->]. exists (rest +:+ "/" +:+ name).
  unfold path_join. by rewrite !append_assoc.
Qed.

Lemma domain_path_under entry :
  startswith entry "intel-rapl:" = true ->
  under_RAPL_PATH (path_join RAPL_PATH entry).
Proof.
  intros [rest ->]%startswith_append. exists rest. reflexivity.
Qed.

Lemma scan_subdomains_keys name domain_path listing :
  under_RAPL_PATH domain_path ->
  forall domains domains',
    scan_subdomains name domain_path listing domains = Done domains' ->
    NoDup domains.*1 ->
    (forall kv, kv ∈ domains -> under_RAPL_PATH kv.2) ->
    domains <> [] ->
    NoDup domains'.*1 /\
    (forall kv, kv ∈ domains' -> under_RAPL_PATH kv.2) /\
    domains' <> [].
Proof.
  intros Hpath. induction listing as [|sub rest IH];
    intros domains domains' H Hnd Hall Hne; simpl in H.
  - by injection H as <-.
  - destruct (startswith (sub_entry sub) "intel-rapl:"); [|by eapply IH].
    destruct (sub_name sub) as [subname|]; [|discriminate].
    eapply IH; [exact H | by apply dict_set_keys | | apply dict_set_not_nil].
    intros kv [Hin | ->]%dict_set_elem; [by apply Hall|].
    simpl. by apply path_join_under.
Qed.

Lemma scan_domains_keys listing :
  forall domains domains',
    scan_domains listing domains = Done domains' ->
    NoDup domains.*1 ->
    (forall kv, kv ∈ domains -> under_RAPL_PATH kv.2) ->
    NoDup domains'.*1 /\
    (forall kv, kv ∈ domains' -> under_RAPL_PATH kv.2) /\
    (domains <> [] \/
     (exists dir, dir ∈ listing /\
                  startswith (dir_entry dir) "intel-rapl:" = true) ->
     domains' <> []).
Proof.
  induction listing as [|dir rest IH]; intros domains domains' H Hnd Hall;
    simpl in H.
  - injection H as <-. repeat split; [done | done |].
    intros [? | (dir & Hin & _)]; [done | by apply elem_of_nil in Hin].
  - destruct (startswith (dir_entry dir) "intel-rapl:") eqn:Hstart.
    + destruct (dir_name dir) as [name|]; [|discriminate].
      destruct (scan_subdomains name (path_join RAPL_PATH (dir_entry dir))
                  (dir_listing dir)
                  (dict_set domains name
                     (path_join RAPL_PATH (dir_entry dir))))
        as [domains1 | f] eqn:Hsub; [|discriminate].
      apply scan_subdomains_keys in Hsub as (Hnd1 & Hall1 & Hne1);
        [| by apply domain_path_under | by apply dict_set_keys
         | | apply dict_set_not_nil].
      * destruct (IH _ _ H Hnd1 Hall1) as (? & ? & Hne).
        repeat split; [done | done |]. intros _. apply Hne. by left.
      * intros kv [Hin | ->]%dict_set_elem; [by apply Hall|].
        simpl. by apply domain_path_under.
    + destruct (IH _ _ H Hnd Hall) as (? & ? & Hne).
      repeat split; [done | done |].
      intros [? | (d & Hin & Hd)]; apply Hne; [by left | right].
      apply elem_of_cons in Hin as [-> | Hin]; [congruence|]. eauto.
Qed.

(** X10. When the discovery succeeds, no domain name occurs twice in its
    result, every path is that of a directory under [RAPL_PATH] whose name
    starts with [intel-rapl:], and the result is not empty as soon as
    [RAPL_PATH] lists one such directory. *)
Theorem get_available_domains_keys sysfs domains :
  get_available_domains sysfs = Done domains ->
  NoDup domains.*1 /\
  (forall name path, (name, path) ∈ domains ->
     exists rest, path = RAPL_PATH +:+ "/intel-rapl:" +:+ rest) /\
  (forall listing dir,
     sysfs = Some listing -> dir ∈ listing ->
     startswith (dir_entry dir) "intel-rapl:" = true ->
     domains <> []).
Proof.
  intros H. destruct sysfs as [listing|]; [|discriminate]. simpl in H.
  apply scan_domains_keys in H as (Hnd & Hall & Hne);
    [| apply NoDup_nil_2 | by intros kv Hin%elem_of_nil].
  repeat split; [exact Hnd | |].
  - intros name path Hin. apply (Hall (name, path) Hin).
  - intros listing' dir [= <-] Hin Hstart. apply Hne. right. eauto.
Qed.

Lemma get_available_domains_keys_witness :
  exists domains,
    get_available_domains sample_sysfs = Done domains /\
    domains.*1 = ["package-0"; "package-0-core"; "package-0-dram"] /\
    NoDup domains.*1 /\
    domains <> [].
Proof.
  destruct (get_available_domains sample_sysfs) as [domains | f] eqn:H;
    [| vm_compute in H; discriminate].
  exists domains. split; [reflexivity|].
  destruct (get_available_domains_keys sample_sysfs domains H)
    as (Hnd & _ & Hne).
  split; [vm_compute in H; by injection H as <- |].
  split; [exact Hnd|].
  eapply Hne; [reflexivity | by left | reflexivity].
Defined.

Lemma scan_domains_nothing listing domains :
  (forall dir, dir ∈ listing ->
     startswith (dir_entry dir) "intel-rapl:" = false) ->
  scan_domains listing domains = Done domains.
Proof.
  induction listing as [|dir rest IH]; intros H; simpl; [done|].
  rewrite (H dir) by (by left). apply IH. intros d Hd. apply H. by right.
Qed.

(** ** The choice of the domains *)

Lemma split_commas_not_nil s : split_commas s <> [].
Proof.
  destruct s as [|c s]; simpl; [discriminate|].
  destruct (Ascii.eqb c comma); [discriminate|].
  destruct (split_commas s); discriminate.
Qed.

(** Splitting at the commas loses nothing: joining the pieces with commas
    gives the text back. *)
Lemma join_split_commas s : join_commas (split_commas s) = s.
Proof.
  induction s as [|c s IH]; [reflexivity|]. simpl.
  pose proof (split_commas_not_nil s) as Hne.
  destruct (Ascii.eqb c comma) eqn:E.
  - apply Ascii.eqb_eq in E as ->.
    destruct (split_commas s) as [|piece pieces]; [done|].
    change (String comma (join_commas (piece :: pieces)) = String comma s).
    by rewrite IH.
  - destruct (split_commas s) as [|piece pieces]; [done|].
    destruct pieces as [|piece' pieces].
    + simpl in IH |- *. by rewrite IH.
    + change (String c (join_commas (piece :: piece' :: pieces))
              = String c s).
      by rewrite IH.
Qed.

(** X11. The monitored domains are always some of the available ones, in
    the order of discovery, and there is none only when none is available:
    a [--domains] that matches nothing falls back to all of them. *)
Theorem select_domains_sublist all_domains domains_arg :
  select_domains all_domains domains_arg `sublist_of` all_domains /\
  (select_domains all_domains domains_arg = [] <-> all_domains = []).
Proof.
  unfold select_domains.
  destruct domains_arg as [[|c text]|]; try (split; [reflexivity | tauto]).
  destruct (filter _ all_domains) as [|kv kvs] eqn:Hf.
  - split; [reflexivity | tauto].
  - split.
    + rewrite <- Hf. apply sublist_filter.
    + split; [discriminate|]. intros ->. discriminate.
Qed.

(** X12. With a [--domains] that is not empty, the requested names are the
    pieces of the text between its commas, taken as they are.  When some
    available domain is requested, the monitored domains are exactly the
    available domains that are requested; when none is, all are
    monitored. *)
Theorem select_domains_requested all_domains text :
  text <> EmptyString ->
  let requested := split_commas text in
  let domains := select_domains all_domains (Some text) in
  join_commas requested = text /\
  ((exists kv, kv ∈ all_domains /\ kv.1 ∈ requested) ->
   forall kv, kv ∈ domains <-> kv ∈ all_domains /\ kv.1 ∈ requested) /\
  ((forall kv, kv ∈ all_domains -> kv.1 ∉ requested) ->
   domains = all_domains).
Proof.
  intros Htext requested domains.
  split; [apply join_split_commas|].
  subst domains. unfold select_domains.
  destruct text as [|c text]; [done|]. fold requested.
  destruct (filter (fun kv => kv.1 ∈ requested) all_domains)
    as [|kv0 kvs] eqn:Hf.
  - split; [|done]. intros (kv & Hin & Hreq). exfalso.
    assert (Hkv : kv ∈ filter (fun kv => kv.1 ∈ requested) all_domains)
      by (by apply list_elem_of_filter).
    rewrite Hf in Hkv. by apply elem_of_nil in Hkv.
  - split.
    + intros _ kv. rewrite <- Hf, list_elem_of_filter. tauto.
    + intros Hnone. exfalso.
      assert (Hkv : kv0 ∈ filter (fun kv => kv.1 ∈ requested) all_domains)
        by (rewrite Hf; by left).
      apply list_elem_of_filter in Hkv as [Hreq Hin].
      by apply (Hnone kv0).
Qed.

Lemma select_domains_requested_witness :
  exists domains,
    get_available_domains sample_sysfs = Done domains /\
    (select_domains domains (Some "package-0-dram,package-0")).*1
    = ["package-0"; "package-0-dram"] /\
    forall kv,
      kv ∈ select_domains domains (Some "package-0-dram,package-0") <->
      kv ∈ domains /\ kv.1 ∈ split_commas "package-0-dram,package-0".
Proof.
  eexists. split; [vm_compute; reflexivity|].
  split; [vm_compute; reflexivity|].
  apply (select_domains_requested _ "package-0-dram,package-0");
    [discriminate|].
  eexists. split; [by left|]. apply (bool_decide_unpack _). vm_compute. exact I.
Defined.

(** ** The value [main] returns *)

(** X14. [main] returns 1 when [RAPL_PATH] does not exist or lists no
    directory whose name starts with [intel-rapl:]: the discovery raises its
    exception, or finds nothing and [main] raises its own. *)
Theorem exit_code_1_without_domains sysfs domains_arg args env :
  (forall listing dir,
     sysfs = Some listing -> dir ∈ listing ->
     startswith (dir_entry dir) "intel-rapl:" = false) ->
  exit_code sysfs domains_arg args env = 1 /\
  (get_available_domains sysfs = Done [] \/
   exists message, get_available_domains sysfs = Failed (Exception message)).
Proof.
  intros Hnone. unfold exit_code.
  destruct sysfs as [listing|]; simpl.
  - rewrite scan_domains_nothing by eauto. auto.
  - eauto.
Qed.

Lemma exit_code_1_without_domains_witness :
  exit_code sysfs_without_rapl (Some "dram") sample_args scenario_D = 1.
Proof.
  apply (exit_code_1_without_domains sysfs_without_rapl).
  intros listing dir [= <-] Hdir.
  repeat (apply elem_of_cons in Hdir as [-> | Hdir]; [reflexivity|]).
  by apply elem_of_nil in Hdir.
Defined.

(** * Properties of [idle_gpu.py] *)

(** ** The names of the columns *)

Lemma append_nil_r (s : string) : s +:+ "" = s.
Proof.
  induction s as [|a s IH]; [reflexivity|].
  change (String a (s +:+ "") = String a s). by rewrite IH.
Qed.

Lemma free_of_append c a b :
  free_of c (a +:+ b) = free_of c a && free_of c b.
Proof.
  induction a as [|x a IH]; [reflexivity|].
  change (negb (Ascii.eqb x c) && free_of c (a +:+ b)
          = negb (Ascii.eqb x c) && free_of c a && free_of c b).
  rewrite IH. by rewrite andb_assoc.
Qed.

Lemma pretty_N_char_free x : Ascii.eqb (pretty_N_char x) underscore = false.
Proof.
  destruct x as [|p]; [reflexivity|].
  do 4 (try destruct p as [p|p|]); reflexivity.
Qed.

Lemma pretty_N_go_free x :
  forall s, exists d, pretty_N_go x s = d +:+ s /\ free_of underscore d = true.
Proof.
  induction (N.lt_wf_0 x) as [x _ IH]. intros s.
  destruct (decide (x = 0%N)) as [-> | Hx].
  - exists "". by rewrite pretty_N_go_0.
  - rewrite pretty_N_go_step by lia.
    destruct (IH (x `div` 10)%N) with
      (s := String (pretty_N_char (x `mod` 10)) s) as (d & -> & Hd).
    { apply N.div_lt; lia. }
    exists (d +:+ String (pretty_N_char (x `mod` 10)) ""). split.
    + by rewrite append_assoc.
    + rewrite free_of_append, Hd. simpl.
      by rewrite pretty_N_char_free.
Qed.

Lemma pretty_nat_free (n : nat) : free_of underscore (pretty n) = true.
Proof.
  unfold pretty, pretty_nat, pretty, pretty_N.
  destruct (decide (N.of_nat n = 0%N)); [reflexivity|].
  destruct (pretty_N_go_free (N.of_nat n) "") as (d & -> & Hd).
  by rewrite append_nil_r.
Qed.

(** Digits followed by a suffix that starts with an underscore: the digits
    and the suffix are determined by the whole. *)
Lemma digits_suffix_inj d1 d2 s1 s2 :
  free_of underscore d1 = true ->
  free_of underscore d2 = true ->
  d1 +:+ String underscore s1 = d2 +:+ String underscore s2 ->
  d1 = d2 /\ s1 = s2.
Proof.
  revert d2. induction d1 as [|a d1 IH]; intros [|b d2] H1 H2 H.
  - by injection H as ->.
  - exfalso. change (String underscore s1
                     = String b (d2 +:+ String underscore s2)) in H.
    injection H as <- _. vm_compute in H2. discriminate.
  - exfalso. change (String a (d1 +:+ String underscore s1)
                     = String underscore s2) in H.
    injection H as -> _. vm_compute in H1. discriminate.
  - change (String a (d1 +:+ String underscore s1)
            = String b (d2 +:+ String underscore s2)) in H.
    injection H as -> H. simpl in H1, H2.
    apply andb_true_iff in H1 as [_ H1], H2 as [_ H2].
    destruct (IH d2 H1 H2 H) as [-> ->]. done.
Qed.

Lemma gpu_fields_suffix minimal prefix k :
  k ∈ gpu_fields minimal prefix ->
  exists s, k = prefix +:+ String underscore s.
Proof.
  unfold gpu_fields. destruct minimal;
    rewrite ?elem_of_cons, elem_of_nil; intros H;
    repeat (destruct H as [-> | H]; [eexists; reflexivity|]); done.
Qed.

(** A column belongs to one GPU only. *)
Lemma gpu_fields_index minimal minimal' gpu gpu' k :
  k ∈ gpu_fields minimal (gpu_prefix gpu) ->
  k ∈ gpu_fields minimal' (gpu_prefix gpu') ->
  gpu_index gpu = gpu_index gpu'.
Proof.
  intros [s ->]%gpu_fields_suffix [s' H]%gpu_fields_suffix.
  unfold gpu_prefix in H. rewrite !append_assoc in H.
  apply (String.app_inj "gpu") in H.
  apply digits_suffix_inj in H as [H _]; try apply pretty_nat_free.
  by apply (inj pretty) in H.
Qed.

Lemma gpu_fields_NoDup minimal prefix : NoDup (gpu_fields minimal prefix).
Proof.
  assert (Hinj : Inj eq eq (String.append prefix)) by apply String.app_inj.
  unfold gpu_fields. destruct minimal.
  - apply NoDup_singleton.
  - change (NoDup (String.append prefix <$>
              [ "_power_watts"; "_temperature_c"; "_utilization_gpu_percent";
                "_utilization_memory_percent"; "_sm_clock_mhz";
                "_mem_clock_mhz"; "_memory_used_mb" ])).
    apply (NoDup_fmap_2 _).
    apply (bool_decide_unpack _). vm_compute. exact I.
Qed.

Lemma gpu_fields_not_fixed_name minimal gpu k :
  k ∈ gpu_fields minimal (gpu_prefix gpu) ->
  k <> "timestamp" /\ k <> "elapsed_seconds".
Proof.
  intros [s ->]%gpu_fields_suffix. unfold gpu_prefix.
  rewrite append_assoc. split; discriminate.
Qed.

(** X15. The header of the GPU file, for devices with distinct indices as
    [get_gpu_info_nvml] returns them: the two fixed columns, then one column
    per GPU in minimal mode and seven otherwise, and no name twice. *)
Theorem gpu_fieldnames_NoDup minimal gpus :
  NoDup (gpu_index <$> gpus) ->
  NoDup (gpu_fieldnames minimal gpus) /\
  length (gpu_fieldnames minimal gpus)
  = (2 + (if minimal then 1 else 7) * length gpus)%nat.
Proof.
  intros Hnd. split.
  - unfold gpu_fieldnames.
    assert (Hcols : NoDup (gpus ≫= fun gpu =>
                             gpu_fields minimal (gpu_prefix gpu))).
    { apply NoDup_bind.
      - intros g1 g2 k Hg1 Hg2 H1 H2.
        pose proof (gpu_fields_index _ _ _ _ _ H1 H2) as Hi.
        apply list_elem_of_lookup in Hg1 as [i1 Hg1], Hg2 as [i2 Hg2].
        assert (i1 = i2).
        { eapply NoDup_lookup; [exact Hnd | |];
            rewrite list_lookup_fmap; [by rewrite Hg1 | by rewrite Hg2, Hi]. }
        subst. congruence.
      - intros g _. apply gpu_fields_NoDup.
      - by apply NoDup_fmap_1 in Hnd. }
    assert (Hfixed : forall name,
              name = "timestamp" \/ name = "elapsed_seconds" ->
              name ∉ gpus ≫= fun gpu => gpu_fields minimal (gpu_prefix gpu)).
    { intros name Hname (g & Hk & _)%list_elem_of_bind.
      destruct (gpu_fields_not_fixed_name _ _ _ Hk).
      destruct Hname; contradiction. }
    simpl. apply NoDup_cons. split.
    + intros [Heq | Hin]%elem_of_cons; [discriminate|].
      revert Hin. apply Hfixed. by left.
    + apply NoDup_cons. split; [apply Hfixed; by right | exact Hcols].
  - unfold gpu_fieldnames. rewrite length_app.
    change (length ["timestamp"; "elapsed_seconds"]) with 2%nat.
    f_equal. clear Hnd.
    induction gpus as [|g l IH]; [simpl; lia|].
    rewrite bind_cons, length_app, IH.
    destruct minimal; simpl length; lia.
Qed.

Lemma get_gpu_info_nvml_indices device_count names :
  match get_gpu_info_nvml device_count names with
  | Done gpus =>
      device_count <> 0%nat /\ gpu_index <$> gpus = seq 0 device_count
  | Failed _ => device_count = 0%nat
  end.
Proof.
  unfold get_gpu_info_nvml. destruct device_count as [|n]; [reflexivity|].
  split; [discriminate|].
  rewrite <- list_fmap_compose. apply list_fmap_id.
Qed.

Lemma gpu_fieldnames_NoDup_witness :
  exists gpus,
    get_gpu_info_nvml 2 (fun _ => "NVIDIA A100") = Done gpus /\
    NoDup (gpu_fieldnames false gpus) /\
    length (gpu_fieldnames false gpus) = 16%nat.
Proof.
  pose proof (get_gpu_info_nvml_indices 2 (fun _ => "NVIDIA A100")) as H.
  destruct (get_gpu_info_nvml 2 (fun _ => "NVIDIA A100")) as [gpus | f];
    [| discriminate].
  destruct H as [_ Hi]. exists gpus. split; [reflexivity|].
  destruct (gpu_fieldnames_NoDup false gpus) as [Hnd Hlen].
  - rewrite Hi. apply NoDup_seq.
  - split; [exact Hnd|]. rewrite Hlen.
    apply (f_equal length) in Hi. rewrite length_fmap in Hi.
    rewrite Hi. reflexivity.
Defined.

(** ** The cells of a row *)

Lemma gpu_cells_union minimal prefix r row :
  gpu_cells minimal prefix r row = gpu_cells minimal prefix r ∅ ∪ row.
Proof.
  unfold gpu_cells. destruct minimal;
    rewrite <- ?insert_union_l; by rewrite (left_id_L ∅ (∪)).
Qed.

Lemma gpu_cells_dom minimal prefix r :
  dom (gpu_cells minimal prefix r ∅)
  = list_to_set (gpu_fields minimal prefix).
Proof.
  unfold gpu_cells, gpu_fields. destruct minimal; simpl;
    rewrite !dom_insert_L, dom_empty_L; apply set_eq; intros k;
    rewrite !elem_of_union, !elem_of_singleton, elem_of_empty; tauto.
Qed.

Lemma gpu_row_dom minimal gpus readings :
  dom (gpu_row minimal gpus readings)
  = list_to_set (gpus ≫= fun gpu => gpu_fields minimal (gpu_prefix gpu)).
Proof.
  unfold gpu_row.
  assert (H : forall acc : gmap string (option Q),
            dom (foldl (fun row gpu =>
                          gpu_cells minimal (gpu_prefix gpu)
                            (readings (gpu_index gpu)) row) acc gpus)
            = dom acc ∪
              list_to_set (gpus ≫= fun gpu =>
                             gpu_fields minimal (gpu_prefix gpu))).
  { induction gpus as [|g l IH]; intros acc.
    - simpl. by rewrite union_empty_r_L.
    - rewrite bind_cons, list_to_set_app_L. simpl. rewrite IH.
      rewrite gpu_cells_union, dom_union_L, gpu_cells_dom.
      rewrite (union_comm_L _ (dom acc)). by rewrite union_assoc_L. }
  rewrite H, dom_empty_L. by rewrite union_empty_l_L.
Qed.

(** X16. The keys of every row of the GPU file are the names of its header,
    in minimal mode and in full mode, whichever NVML calls fail: a failed
    call gives a [None] cell, not a missing one. *)
Theorem gpu_row_keys_are_the_fieldnames minimal gpus readings k :
  k ∈ gpu_fieldnames minimal gpus <->
  k = "timestamp" \/ k = "elapsed_seconds" \/
  is_Some (gpu_row minimal gpus readings !! k).
Proof.
  rewrite <- elem_of_dom, gpu_row_dom, elem_of_list_to_set.
  unfold gpu_fieldnames.
  rewrite elem_of_app, !elem_of_cons, elem_of_nil. tauto.
Qed.

Lemma gpu_row_untouched minimal gpus readings k :
  (forall gpu, gpu ∈ gpus -> k ∉ gpu_fields minimal (gpu_prefix gpu)) ->
  forall acc : gmap string (option Q),
    foldl (fun row gpu =>
             gpu_cells minimal (gpu_prefix gpu) (readings (gpu_index gpu)) row)
          acc gpus !! k = acc !! k.
Proof.
  induction gpus as [|g l IH]; intros Hk acc; simpl; [done|].
  rewrite IH by (intros g' Hg'; apply Hk; by right).
  rewrite gpu_cells_union. apply lookup_union_r.
  apply not_elem_of_dom. rewrite gpu_cells_dom, elem_of_list_to_set.
  apply Hk. by left.
Qed.

(** The cells of a GPU hold its own readings: no other GPU writes them. *)
Lemma gpu_row_lookup minimal gpus readings gpu k :
  NoDup (gpu_index <$> gpus) ->
  gpu ∈ gpus ->
  k ∈ gpu_fields minimal (gpu_prefix gpu) ->
  gpu_row minimal gpus readings !! k
  = gpu_cells minimal (gpu_prefix gpu) (readings (gpu_index gpu)) ∅ !! k.
Proof.
  unfold gpu_row. generalize (∅ : gmap string (option Q)) at 1.
  induction gpus as [|g l IH]; intros acc Hnd Hin Hk.
  - by apply elem_of_nil in Hin.
  - rewrite fmap_cons in Hnd. apply NoDup_cons in Hnd as [Hg Hnd].
    simpl. apply elem_of_cons in Hin as [-> | Hin]; [|by apply IH].
    rewrite gpu_row_untouched.
    + rewrite gpu_cells_union. apply lookup_union_l'.
      apply elem_of_dom. by rewrite gpu_cells_dom, elem_of_list_to_set.
    + intros g' Hg' Hk'. apply Hg.
      rewrite (gpu_fields_index _ _ _ _ _ Hk Hk').
      apply list_elem_of_fmap. eauto.
Qed.

Lemma round_half_even_comp q1 q2 :
  (q1 == q2)%Q -> round_half_even q1 = round_half_even q2.
Proof.
  intros H. unfold round_half_even.
  rewrite (Qfloor_comp _ _ H).
  assert (Hc : ((q1 - inject_Z (Qfloor q2)) ?= (1 # 2))%Q
               = ((q2 - inject_Z (Qfloor q2)) ?= (1 # 2))%Q).
  { apply Qcompare_comp; [by rewrite H | reflexivity]. }
  by rewrite Hc.
Qed.

(** Rounding to [n] places does not change a number of thousandths,
    hundredths, ... that is, an integer over [10^n]. *)
Lemma py_round_exact z n :
  (py_round (inject_Z z / inject_Z (10 ^ Z.of_nat n)) n
   == inject_Z z / inject_Z (10 ^ Z.of_nat n))%Q.
Proof.
  unfold py_round. pose proof (scale_pos n) as Hs.
  rewrite (round_half_even_comp _ (inject_Z z)).
  - by rewrite round_half_even_inject_Z.
  - field. lra.
Qed.

Ltac skip_other_columns :=
  repeat (rewrite lookup_insert_ne
            by (let E := fresh in
                intros E; apply (String.app_inj _) in E; discriminate)).

Lemma gpu_cells_power minimal prefix r :
  gpu_cells minimal prefix r ∅ !! (prefix +:+ "_power_watts")
  = Some ((fun p => py_round p 3) <$> get_gpu_power_nvml r).
Proof.
  unfold gpu_cells. destruct minimal; skip_other_columns;
    apply lookup_insert_eq.
Qed.

Lemma gpu_cells_clocks prefix r :
  gpu_cells false prefix r ∅ !! (prefix +:+ "_sm_clock_mhz")
  = Some (inject_Z <$> (get_clock_info_nvml r).1) /\
  gpu_cells false prefix r ∅ !! (prefix +:+ "_mem_clock_mhz")
  = Some (inject_Z <$> (get_clock_info_nvml r).2).
Proof.
  unfold gpu_cells. split; skip_other_columns; apply lookup_insert_eq.
Qed.

(** X17. For devices with distinct indices, the power cell of a GPU holds
    what NVML reported for that GPU: the milliwatts over 1000, which the
    rounding to 3 places leaves unchanged, or [None] when the call failed,
    never 0. *)
Theorem gpu_power_cell minimal gpus readings gpu :
  NoDup (gpu_index <$> gpus) ->
  gpu ∈ gpus ->
  exists cell,
    gpu_row minimal gpus readings !! (gpu_prefix gpu +:+ "_power_watts")
    = Some cell /\
    match power_usage (readings (gpu_index gpu)) with
    | Some mw => exists w, cell = Some w /\ (w == inject_Z mw / 1000)%Q
    | None => cell = None
    end.
Proof.
  intros Hnd Hin.
  rewrite (gpu_row_lookup minimal gpus readings gpu) by
    (try done; unfold gpu_fields; by left).
  rewrite gpu_cells_power. eexists. split; [reflexivity|].
  unfold get_gpu_power_nvml.
  destruct (power_usage (readings (gpu_index gpu))) as [mw|]; simpl; [|done].
  eexists. split; [reflexivity|]. apply (py_round_exact mw 3).
Qed.

Lemma gpu_power_cell_witness :
  exists gpus cell w,
    get_gpu_info_nvml 2 (fun _ => "NVIDIA A100") = Done gpus /\
    gpu_row true gpus sample_nvml !! "gpu1_power_watts" = Some cell /\
    cell = Some w /\ (w == 61234 # 1000)%Q.
Proof.
  pose proof (get_gpu_info_nvml_indices 2 (fun _ => "NVIDIA A100")) as H.
  destruct (get_gpu_info_nvml 2 (fun _ => "NVIDIA A100")) as [gpus | f] eqn:E;
    [| discriminate].
  destruct H as [_ Hi].
  destruct (gpu_power_cell true gpus sample_nvml
              {| gpu_index := 1; gpu_name := "NVIDIA A100" |})
    as (cell & Hcell & w & Hw & Hval).
  - rewrite Hi. apply NoDup_seq.
  - vm_compute in E. injection E as <-.
    apply elem_of_cons. right. apply elem_of_cons. by left.
  - exists gpus, cell, w. split; [reflexivity|].
    split; [exact Hcell|]. split; [exact Hw | exact Hval].
Defined.

(** X18. The two clock cells of a GPU are filled together or not at all:
    both are [None] as soon as one of the two NVML calls fails, for both are
    made inside one [try]. *)
Theorem gpu_clock_cells gpus readings gpu :
  NoDup (gpu_index <$> gpus) ->
  gpu ∈ gpus ->
  let r := readings (gpu_index gpu) in
  exists sm mem,
    gpu_row false gpus readings !! (gpu_prefix gpu +:+ "_sm_clock_mhz")
    = Some sm /\
    gpu_row false gpus readings !! (gpu_prefix gpu +:+ "_mem_clock_mhz")
    = Some mem /\
    (sm = None <-> mem = None) /\
    (mem = None <-> clock_sm r = None \/ clock_mem r = None).
Proof.
  intros Hnd Hin r. subst r.
  rewrite !(gpu_row_lookup false gpus readings gpu) by
    (try done; unfold gpu_fields; rewrite !elem_of_cons; tauto).
  destruct (gpu_cells_clocks (gpu_prefix gpu) (readings (gpu_index gpu)))
    as [-> ->].
  eexists _, _. split; [reflexivity|]. split; [reflexivity|].
  unfold get_clock_info_nvml.
  destruct (clock_sm (readings (gpu_index gpu))),
           (clock_mem (readings (gpu_index gpu))); simpl; split; split;
    try discriminate; try tauto; intros [? | ?]; discriminate.
Qed.

Lemma gpu_clock_cells_witness :
  exists gpus,
    get_gpu_info_nvml 2 (fun _ => "NVIDIA A100") = Done gpus /\
    clock_sm (sample_nvml 0) = Some 1410 /\
    gpu_row false gpus sample_nvml !! "gpu0_sm_clock_mhz" = Some None /\
    gpu_row false gpus sample_nvml !! "gpu0_mem_clock_mhz" = Some None.
Proof.
  pose proof (get_gpu_info_nvml_indices 2 (fun _ => "NVIDIA A100")) as H.
  destruct (get_gpu_info_nvml 2 (fun _ => "NVIDIA A100")) as [gpus | f] eqn:E;
    [| discriminate].
  destruct H as [_ Hi].
  destruct (gpu_clock_cells gpus sample_nvml
              {| gpu_index := 0; gpu_name := "NVIDIA A100" |})
    as (sm & mem & Hsm & Hmem & Hboth & Hfail).
  - rewrite Hi. apply NoDup_seq.
  - vm_compute in E. injection E as <-. by left.
  - exists gpus. split; [reflexivity|]. split; [reflexivity|].
    assert (Hm : mem = None) by (apply Hfail; right; reflexivity).
    assert (Hs : sm = None) by (by apply Hboth).
    subst. split; [exact Hsm | exact Hmem].
Defined.

(** ** The loop of the GPU script *)

Lemma gpu_flush_and_report_spec args start st t row :
  (start <= gpu_last_status_time st)%Q ->
  exists st',
    gpu_flush_and_report args start st t row = Ok st' /\
    (start <= gpu_last_status_time st')%Q /\
    gpu_csvfile st' ++ gpu_buffer st'
    = gpu_csvfile st ++ gpu_buffer st ++ [row] /\
    gpu_samples st' = gpu_samples st + 1.
Proof.
  intros Hlast. unfold gpu_flush_and_report.
  destruct (buffer_size args <=? _).
  - destruct (Qle_bool 5 _) eqn:E.
    + apply Qle_bool_iff in E. unfold truediv.
      destruct (Qeq_bool (gpu_current t - start) 0) eqn:Ez.
      { apply Qeq_bool_eq in Ez. exfalso. lra. }
      simpl. eexists. split; [reflexivity|]. simpl.
      rewrite app_nil_r. split; [lra | done].
    + eexists. split; [reflexivity|]. simpl.
      rewrite app_nil_r. done.
  - eexists. split; [reflexivity|]. simpl. by rewrite app_assoc.
Qed.

Lemma gpu_loop_spec args minimal gpus start ts :
  forall st,
    (start <= gpu_last_status_time st)%Q ->
    exists why st' rows,
      gpu_loop args minimal gpus start st ts = Ok (why, st', rows) /\
      gpu_csvfile st' ++ gpu_buffer st'
      = gpu_csvfile st ++ gpu_buffer st ++ rows /\
      gpu_samples st' = gpu_samples st + Z.of_nat (length rows).
Proof.
  induction ts as [|t rest IH]; intros st Hlast; simpl.
  - eexists _, _, _. split; [reflexivity|]. rewrite app_nil_r. simpl.
    split; [done | lia].
  - unfold gpu_tick. destruct (_ && _).
    + simpl. eexists _, _, _. split; [reflexivity|]. rewrite app_nil_r.
      simpl. split; [done | lia].
    + destruct (gpu_flush_and_report_spec args start st t
                  {| gpu_timestamp := gpu_now_iso t;
                     gpu_elapsed_seconds :=
                       py_round (gpu_current_time t - start) 6;
                     gpu_cells_of := gpu_row minimal gpus (nvml t) |} Hlast)
        as (st1 & -> & Hlast1 & Hrows1 & Hcount1).
      simpl.
      destruct (IH st1 Hlast1) as (why & st' & rows & -> & Hrows & Hcount).
      simpl. eexists _, _, _. split; [reflexivity|]. split.
      * rewrite Hrows, app_assoc, Hrows1. by rewrite <- !app_assoc.
      * rewrite Hcount, Hcount1. simpl length. lia.
Qed.

(** X19. When the loop of the GPU script ends by the duration limit or by
    Ctrl+C, the rows of the file are the appended rows, in order, each once,
    as many as the sample count: the rest of the buffer is written at lines
    252-253. *)
Theorem gpu_buffered_rows_all_written args minimal gpus start ts o :
  gpu_main args minimal gpus start ts = Ok o ->
  gpu_data_rows o = gpu_appended o /\
  gpu_sample_count o = Z.of_nat (length (gpu_appended o)).
Proof.
  unfold gpu_main.
  destruct (gpu_loop_spec args minimal gpus start ts
              (gpu_initial_state start) (Qle_refl _))
    as (why & st' & rows & -> & Hrows & Hcount).
  simpl. intros [= <-]. simpl in *. split; [|exact Hcount].
  rewrite <- Hrows. destruct (gpu_buffer st'); [by rewrite app_nil_r | done].
Qed.

Lemma gpu_buffered_rows_all_written_witness :
  exists o,
    gpu_main sample_args true
      [{| gpu_index := 0; gpu_name := "NVIDIA A100" |}] 0
      gpu_five_ticks = Ok o /\
    gpu_data_rows o = gpu_appended o /\
    gpu_sample_count o = 5 /\
    gpu_ended o = Interrupted.
Proof.
  destruct (gpu_main sample_args true
              [{| gpu_index := 0; gpu_name := "NVIDIA A100" |}] 0
              gpu_five_ticks) as [o | e] eqn:H;
    [| vm_compute in H; discriminate].
  exists o. split; [reflexivity|].
  destruct (gpu_buffered_rows_all_written _ _ _ _ _ _ H) as [Hrows _].
  split; [exact Hrows|].
  vm_compute in H. injection H as <-. split; reflexivity.
Defined.

(** A row of the GPU file divides nothing by the interval: with [-i 0] and a
    clock that stands still, the input on which line 201 of the CPU script
    divides by zero, two iterations append two rows. *)
Example gpu_main_zero_interval :
  exists o,
    gpu_main zero_interval_args false
      [{| gpu_index := 0; gpu_name := "NVIDIA A100" |}] 7
      [gpu_still_tick; gpu_still_tick] = Ok o /\
    length (gpu_data_rows o) = 2%nat.
Proof. eexists. split; vm_compute; reflexivity. Qed.
